(** * Subscription groups of dittofeed: links, lookup, registry and updates

    A shallow embedding of the subscription-group module of the backend
    library: [upsertSubscriptionGroup], [generateSubscriptionHash],
    [generateSubscriptionChangeUrl], [buildSubscriptionChangeEvent],
    [getUserSubscriptions], [lookupUserForSubscriptions] and
    [updateUserSubscriptions].

    Strings are sequences of bytes: a TypeScript string is given by its
    UTF-8 text.  Only well-formed strings have one; a string with a lone
    surrogate, which [URLSearchParams] would replace by U+FFFD, is outside
    the model, and every statement below is about well-formed strings.
    The relational store behind [prisma()] is a record of tables, each
    table the list of its rows in storage order; every query is an action
    of the [Prisma] monad, which threads the store and lets a call throw.
    A write may fail: whether it does is the database's verdict, a
    parameter of the operations; a read is taken to return. *)

From Stdlib Require Import Ascii String List Bool Arith Lia.
From Stdlib Require Import Sorting.Sorted Sorting.Permutation.
From Stdlib Require Import ZArith.
From stdpp Require Import base option list sorting gmap strings pretty.

Local Open Scope string_scope.
Local Open Scope list_scope.

Set Default Proof Using "Type".

(* ================================================================== *)
(** ** Strings *)

Module Str.

(** [s.includes(c)] for a single character. *)
Fixpoint has (c : ascii) (s : string) : bool :=
  match s with
  | EmptyString => false
  | String a r => Ascii.eqb a c || has c r
  end.

(** [s.split(sep)] for a single-character separator: never empty. *)
Fixpoint split (sep : ascii) (s : string) : list string :=
  match s with
  | EmptyString => [EmptyString]
  | String a r =>
      if Ascii.eqb a sep then EmptyString :: split sep r
      else match split sep r with
           | h :: t => String a h :: t
           | [] => [String a EmptyString]
           end
  end.

(** Cut at the first occurrence of [sep]: the text before it and, when
    [sep] occurs, the text after it. *)
Fixpoint cut (sep : ascii) (s : string) : string * option string :=
  match s with
  | EmptyString => (EmptyString, None)
  | String a r =>
      if Ascii.eqb a sep then (EmptyString, Some r)
      else let '(h, t) := cut sep r in (String a h, t)
  end.

(** [parts.join(sep)]. *)
Fixpoint join (sep : string) (parts : list string) : string :=
  match parts with
  | [] => EmptyString
  | [p] => p
  | p :: rest => p +:+ sep +:+ join sep rest
  end.

(** [s.startsWith(p)] returning the remainder. *)
Fixpoint stripPrefix (p s : string) : option string :=
  match p, s with
  | EmptyString, _ => Some s
  | String a p', String b s' =>
      if Ascii.eqb a b then stripPrefix p' s' else None
  | String _ _, EmptyString => None
  end.

Definition isEmpty (s : string) : bool :=
  match s with EmptyString => true | _ => false end.




End Str.

(* ================================================================== *)
(** ** [URLSearchParams]: the application/x-www-form-urlencoded format *)

Module URLSearchParams.

(** Bytes that the serializer leaves as they are: ASCII alphanumerics
    and [*], [-], [.], [_]. *)
Definition isPlain (c : ascii) : bool :=
  let n := nat_of_ascii c in
  (Nat.leb 48 n && Nat.leb n 57) || (Nat.leb 65 n && Nat.leb n 90)
  || (Nat.leb 97 n && Nat.leb n 122)
  || Nat.eqb n 42 || Nat.eqb n 45 || Nat.eqb n 46 || Nat.eqb n 95.

Definition hexDigit (n : nat) : ascii :=
  if Nat.ltb n 10 then ascii_of_nat (48 + n) else ascii_of_nat (55 + n).

Definition hexValue (c : ascii) : option nat :=
  let n := nat_of_ascii c in
  if Nat.leb 48 n && Nat.leb n 57 then Some (n - 48)
  else if Nat.leb 65 n && Nat.leb n 70 then Some (n - 55)
  else if Nat.leb 97 n && Nat.leb n 102 then Some (n - 87)
  else None.

(** Serialization of one byte: itself, [+] for a space, or [%XX]. *)
Definition serializeByte (c : ascii) : string :=
  if isPlain c then String c EmptyString
  else if Ascii.eqb c " " then "+"
  else let n := nat_of_ascii c in
       String "%" (String (hexDigit (n / 16))
                     (String (hexDigit (n mod 16)) EmptyString)).

Fixpoint serializeBytes (s : string) : string :=
  match s with
  | EmptyString => EmptyString
  | String c r => serializeByte c +:+ serializeBytes r
  end.

Definition serializeEntry (e : string * string) : string :=
  serializeBytes (fst e) +:+ "=" +:+ serializeBytes (snd e).

(** [new URLSearchParams(entries).toString()]. *)
Definition toString (entries : list (string * string)) : string :=
  Str.join "&" (map serializeEntry entries).

Fixpoint plusToSpace (s : string) : string :=
  match s with
  | EmptyString => EmptyString
  | String c r =>
      String (if Ascii.eqb c "+" then " "%char else c) (plusToSpace r)
  end.

Fixpoint percentDecode (s : string) : string :=
  match s with
  | EmptyString => EmptyString
  | String c r =>
      if Ascii.eqb c "%" then
        match r with
        | String a (String b r') =>
            match hexValue a, hexValue b with
            | Some x, Some y =>
                String (ascii_of_nat (16 * x + y)) (percentDecode r')
            | _, _ => String c (percentDecode r)
            end
        | _ => String c (percentDecode r)
        end
      else String c (percentDecode r)
  end.

Definition decodeComponent (s : string) : string :=
  percentDecode (plusToSpace s).

Definition parseSequence (s : string) : string * string :=
  let '(name, value) := Str.cut "=" s in
  (decodeComponent name, decodeComponent (default EmptyString value)).

(** [Array.from(new URLSearchParams(query))]: empty sequences between
    ampersands are skipped. *)
Definition parse (query : string) : list (string * string) :=
  map parseSequence
    (filter (fun s => Str.isEmpty s = false) (Str.split "&" query)).

(** [params.get(name)]: the first value with that name. *)
Fixpoint get (name : string) (entries : list (string * string))
  : option string :=
  match entries with
  | [] => None
  | (k, v) :: rest => if String.eqb k name then Some v else get name rest
  end.

Definition keys (entries : list (string * string)) : list string :=
  map fst entries.

End URLSearchParams.

(* ================================================================== *)
(** ** JSON values and [JSON.stringify] *)

Module JSON.

Local Unset Elimination Schemes.

(** [JSONValue] of [types.ts]; numbers are restricted to integers. *)
Inductive JSONValue : Type :=
| JString (s : string)
| JNumber (n : Z)
| JBool (b : bool)
| JObject (fields : list (string * JSONValue))
| JArray (items : list JSONValue).

Local Set Elimination Schemes.

Definition hexLower (n : nat) : ascii :=
  if Nat.ltb n 10 then ascii_of_nat (48 + n) else ascii_of_nat (87 + n).

(** The escape of one byte inside a JSON string literal. *)
Definition escapeByte (c : ascii) : string :=
  let n := nat_of_ascii c in
  if Nat.eqb n 34 then String "\" (String (ascii_of_nat 34) "")
  else if Nat.eqb n 92 then "\\"
  else if Nat.eqb n 8 then "\b"
  else if Nat.eqb n 12 then "\f"
  else if Nat.eqb n 10 then "\n"
  else if Nat.eqb n 13 then "\r"
  else if Nat.eqb n 9 then "\t"
  else if Nat.ltb n 32 then
    "\u00" +:+ String (hexLower (n / 16)) (String (hexLower (n mod 16)) "")
  else String c "".

Fixpoint escape (s : string) : string :=
  match s with
  | EmptyString => EmptyString
  | String c r => escapeByte c +:+ escape r
  end.

(** [JSON.stringify(s)] for a string [s]: the quoted, escaped literal. *)
Definition quote (s : string) : string :=
  String (ascii_of_nat 34) (escape s) +:+ String (ascii_of_nat 34) "".

(** [JSON.stringify(v)]. *)
Fixpoint stringify (v : JSONValue) : string :=
  match v with
  | JString s => quote s
  | JNumber n => pretty n
  | JBool b => if b then "true" else "false"
  | JObject fields =>
      "{" +:+ Str.join ","
        ((fix members (l : list (string * JSONValue)) : list string :=
            match l with
            | [] => []
            | (k, x) :: r => (quote k +:+ ":" +:+ stringify x) :: members r
            end) fields) +:+ "}"
  | JArray items =>
      "[" +:+ Str.join ","
        ((fix elements (l : list JSONValue) : list string :=
            match l with
            | [] => []
            | x :: r => stringify x :: elements r
            end) items) +:+ "]"
  end.

End JSON.
Export JSON (JSONValue(..)).

(* ================================================================== *)
(** ** Data model *)

(** [Result<T, Error>] of neverthrow: a returned, typed outcome. *)
Inductive Result (T : Type) : Type :=
| ok (value : T)
| err (message : string).
Arguments ok {T} value.
Arguments err {T} message.

Inductive SubscriptionGroupType := OptIn | OptOut.

Inductive SubscriptionChange := Subscribe | UnSubscribe.

Inductive SegmentOperator :=
| Within (windowSeconds : Z)
| Equals (value : string).

(** [SegmentNode]: the three kinds of [isomorphic-lib/src/types.ts] and the
    [SegmentNodeType.SubscriptionGroup] kind that [upsertSubscriptionGroup]
    writes. *)
Inductive SegmentNode :=
| TraitSegmentNode (id path : string) (operator : SegmentOperator)
| AndSegmentNode (id : string) (children : list string)
| OrSegmentNode (id : string) (children : list string)
| SubscriptionGroupSegmentNode (id subscriptionGroupId : string).

Record SegmentDefinition := {
  entryNode : SegmentNode;
  nodes : list SegmentNode;
}.

(** The rows of the tables the module touches, with the columns it names.
    The relations are the ones its queries follow: a segment belongs to the
    group named by [subscriptionGroupId], a segment assignment to the
    segment named by [segmentId], a user-property assignment to the user
    property named by [userPropertyId]. *)

Module Channel.
Record t := { id : string; workspaceId : string; name : string }.
End Channel.

Module SubscriptionGroup.
Record t := {
  id : string;
  workspaceId : string;
  name : string;
  type : SubscriptionGroupType;
  channelId : string;
}.
End SubscriptionGroup.

Module Segment.
Record t := {
  id : string;
  workspaceId : string;
  name : string;
  definition : SegmentDefinition;
  subscriptionGroupId : option string;
  resourceType : string;
}.
End Segment.

Module SegmentAssignment.
Record t := {
  workspaceId : string;
  userId : string;
  segmentId : string;
  inSegment : bool;
}.
End SegmentAssignment.

Module Secret.
Record t := { workspaceId : string; name : string; value : string }.
End Secret.

Module UserProperty.
Record t := { id : string; workspaceId : string; name : string }.
End UserProperty.

Module UserPropertyAssignment.
Record t := { userPropertyId : string; userId : string; value : string }.
End UserPropertyAssignment.

(** [InsertUserEvent] of [userEvents.ts]. *)
Record InsertUserEvent := {
  messageId : string;
  messageRaw : string;
}.

(** [SubscriptionGroupResource]. *)
Record SubscriptionGroupResource := {
  sgr_id : string;
  sgr_workspaceId : string;
  sgr_name : string;
  sgr_type : SubscriptionGroupType;
}.

(** [UserSubscriptionResource]. *)
Record UserSubscriptionResource := {
  usr_id : string;
  usr_name : string;
  isSubscribed : bool;
}.

(** The store: every table as the list of its rows, and the event log as
    the list of appended events, each with the workspace it was appended
    for. *)
Record Store := {
  channel : list Channel.t;
  subscriptionGroup : list SubscriptionGroup.t;
  segment : list Segment.t;
  segmentAssignment : list SegmentAssignment.t;
  secret : list Secret.t;
  userProperty : list UserProperty.t;
  userPropertyAssignment : list UserPropertyAssignment.t;
  userEvents : list (string * InsertUserEvent);
}.

(** What a call can observe and change: the store, the lines written with
    [logger().error], and how many uuids and clock readings were drawn. *)
Record World := {
  store : Store;
  errorLog : list string;
  uuidsDrawn : nat;
  clockReads : nat;
}.

Definition withStore (f : Store -> Store) (w : World) : World :=
  {| store := f (store w); errorLog := errorLog w;
     uuidsDrawn := uuidsDrawn w; clockReads := clockReads w |}.

(* ------------------------------------------------------------------ *)
(** *** The monad of calls: state, and a thrown [Error] *)

Inductive Completion (A : Type) : Type :=
| Normal (a : A)
| Throw (message : string).
Arguments Normal {A} a.
Arguments Throw {A} message.

Definition Prisma (A : Type) : Type := World -> Completion A * World.

#[export] Instance Prisma_ret : MRet Prisma :=
  fun A a w => (Normal a, w).

#[export] Instance Prisma_bind : MBind Prisma :=
  fun A B f m w =>
    match m w with
    | (Normal a, w') => f a w'
    | (Throw e, w') => (Throw e, w')
    end.

Definition throw {A} (message : string) : Prisma A :=
  fun w => (Throw message, w).

Definition getStore : Prisma Store := fun w => (Normal (store w), w).

Definition modifyStore (f : Store -> Store) : Prisma unit :=
  fun w => (Normal tt, withStore f w).

(** [logger().error(_, message)]. *)
Definition logError (message : string) : Prisma unit :=
  fun w => (Normal tt,
            {| store := store w; errorLog := errorLog w ++ [message];
               uuidsDrawn := uuidsDrawn w; clockReads := clockReads w |}).

(** Run the actions in order and collect their values, up to the first
    that throws: a [flatMap] over calls. *)
Fixpoint sequence {A} (ops : list (Prisma A)) : Prisma (list A) :=
  match ops with
  | [] => mret []
  | op :: rest => a ← op; r ← sequence rest; mret (a :: r)
  end.

(** [Promise.all(ops)]: every action is issued, also after one has
    failed; the call throws what the first failed action threw, and
    collects the values when none failed.  The actions run concurrently;
    here they take effect in the order of the array, one of the orders in
    which they can, and the world after is the world once every action
    has settled. *)
Fixpoint promiseAll {A} (ops : list (Prisma A)) : Prisma (list A) :=
  match ops with
  | [] => mret []
  | op :: rest =>
      fun w =>
        match op w with
        | (Normal a, w1) =>
            match promiseAll rest w1 with
            | (Normal r, w2) => (Normal (a :: r), w2)
            | (Throw e, w2) => (Throw e, w2)
            end
        | (Throw e, w1) => (Throw e, snd (promiseAll rest w1))
        end
  end.

(** An action run for its effect. *)
Definition void {A} (op : Prisma A) : Prisma unit :=
  _ ← op; mret tt.

(** How a call completed, its value set aside. *)
Definition outcomeOf {A} (c : Completion A) : Completion unit :=
  match c with
  | Normal _ => Normal tt
  | Throw e => Throw e
  end.

(** Two actions of different types, as in [Promise.all([a, b])] and in
    [$transaction([a, b])]. *)
Definition both {A B} (a : Prisma A) (b : Prisma B) : Prisma (A * B) :=
  x ← a; y ← b; mret (x, y).

(** [prisma().$transaction(...)]: all the writes, or none of them. *)
Definition transaction {A} (body : Prisma A) : Prisma A :=
  fun w =>
    match body w with
    | (Normal a, w') => (Normal a, w')
    | (Throw e, _) => (Throw e, w)
    end.

(* ------------------------------------------------------------------ *)
(** *** Queries *)

(** [update] applied to the row a unique [where] selects. *)
Fixpoint updateWhere {A} (p : A -> bool) (f : A -> A) (rows : list A)
  : list A :=
  match rows with
  | [] => []
  | r :: rest => if p r then f r :: rest else r :: updateWhere p f rest
  end.

(** [table.upsert({where, create, update})]: the row the unique [where]
    selects is updated in place, and when there is none the created row is
    appended. *)
Definition upsert {A} (table : Store -> list A)
    (setTable : list A -> Store -> Store) (p : A -> bool)
    (create : Prisma A) (update : A -> A) : Prisma A :=
  st ← getStore;
  match find p (table st) with
  | Some r =>
      _ ← modifyStore (setTable (updateWhere p update (table st)));
      mret (update r)
  | None =>
      row ← create;
      _ ← modifyStore (fun st' => setTable (table st' ++ [row]) st');
      mret row
  end.

(** The monad's operations, unfolded. *)
Ltac run :=
  unfold both, transaction, upsert, getStore, modifyStore, throw, logError,
    mbind, mret, Prisma_bind, Prisma_ret in *;
  simpl in *.

(** JavaScript truthiness of a nullable string column. *)
Definition truthy (v : option string) : bool :=
  match v with
  | Some s => negb (Str.isEmpty s)
  | None => false
  end.

(** [orderBy: { name: "asc" }]: the rows sorted by their names, compared
    byte by byte. *)
Definition nameLe {A} (name : A -> string) (x y : A) : Prop :=
  String.leb (name x) (name y) = true.

#[export] Instance nameLe_dec {A} (name : A -> string) (x y : A)
  : Decision (nameLe name x y).
Proof. unfold nameLe. apply _. Defined.

Definition orderByNameAsc {A} (name : A -> string) (rows : list A) : list A :=
  merge_sort (nameLe name) rows.

Definition setSubscriptionGroup (rows : list SubscriptionGroup.t)
    (st : Store) : Store :=
  {| channel := channel st; subscriptionGroup := rows;
     segment := segment st; segmentAssignment := segmentAssignment st;
     secret := secret st; userProperty := userProperty st;
     userPropertyAssignment := userPropertyAssignment st;
     userEvents := userEvents st |}.

Definition setSegment (rows : list Segment.t) (st : Store) : Store :=
  {| channel := channel st; subscriptionGroup := subscriptionGroup st;
     segment := rows; segmentAssignment := segmentAssignment st;
     secret := secret st; userProperty := userProperty st;
     userPropertyAssignment := userPropertyAssignment st;
     userEvents := userEvents st |}.

Definition setSegmentAssignment (rows : list SegmentAssignment.t)
    (st : Store) : Store :=
  {| channel := channel st; subscriptionGroup := subscriptionGroup st;
     segment := segment st; segmentAssignment := rows;
     secret := secret st; userProperty := userProperty st;
     userPropertyAssignment := userPropertyAssignment st;
     userEvents := userEvents st |}.

Definition setUserEvents (rows : list (string * InsertUserEvent))
    (st : Store) : Store :=
  {| channel := channel st; subscriptionGroup := subscriptionGroup st;
     segment := segment st; segmentAssignment := segmentAssignment st;
     secret := secret st; userProperty := userProperty st;
     userPropertyAssignment := userPropertyAssignment st;
     userEvents := rows |}.

(** Modelled from the spec: the string values of the [SubscriptionChange]
    enum, declared in [backend-lib/src/types.ts], which is not part of the
    sources at hand; the spec writes the actions [Subscribe] and
    [UnSubscribe]. *)
Definition SubscriptionChange_value (c : SubscriptionChange) : string :=
  match c with
  | Subscribe => "Subscribe"
  | UnSubscribe => "UnSubscribe"
  end.

(** Modelled from the spec: [InternalEventType.SubscriptionChange], declared
    in [backend-lib/src/types.ts]; the spec gives the event name as
    [SubscriptionChange]. *)
Definition InternalEventType_SubscriptionChange : string :=
  "SubscriptionChange".

(** Modelled from the spec: [insertUserEvents] of [userEvents.ts], which is
    not part of the sources at hand; the spec describes it as an append of
    the given events to the workspace's event log, and as a write that may
    fail on its own: the caller issues it as a write to the database. *)
Definition insertUserEvents (workspaceId : string)
    (events : list InsertUserEvent) : Prisma unit :=
  modifyStore (fun st =>
    setUserEvents (userEvents st ++ map (fun e => (workspaceId, e)) events) st).

(* ================================================================== *)
(** ** A reference instance of what the module imports

    A sample keyed digest, which writes out the key and the fields in
    full, values for the imported constants and for the environment, and
    databases that accept or refuse writes.  The properties below hold for
    every instance; this one shows that their assumptions can be met and
    lets the operations be evaluated. *)

Module Reference.

(** A self-delimiting copy of a string. *)
Fixpoint frame (s : string) : string :=
  match s with
  | EmptyString => "."
  | String c r => String "x" (String c (frame r))
  end.

Definition frameValue (v : JSONValue) : string :=
  match v with
  | JString s => frame s
  | _ => "."
  end.

Fixpoint frameFields (fields : list (string * JSONValue)) : string :=
  match fields with
  | [] => "."
  | f :: rest =>
      String "f" (frame (fst f) +:+ frameValue (snd f) +:+ frameFields rest)
  end.

Definition secureHash (key : string) (value : list (string * JSONValue))
  : string :=
  frame key +:+ frameFields value.

Definition managementPage : string := "/public/subscription-management".
Definition secretName : string := "subscription-key".
Definition uuid (n : nat) : string := "uuid-" +:+ pretty n.
Definition toISOString (n : nat) : string := "2023-05-01T00:00:00.000Z".

(** A database that accepts every write. *)
Definition noFault (table : string) (key : list string) (w : World)
  : option string := None.


(** The internal segment of a group, as a row. *)
Definition segmentOfGroup (rowId workspaceId groupId : string) : Segment.t :=
  {| Segment.id := rowId;
     Segment.workspaceId := workspaceId;
     Segment.name := "subscriptionGroup-" +:+ groupId;
     Segment.definition :=
       {| entryNode := SubscriptionGroupSegmentNode "1" groupId;
          nodes := [] |};
     Segment.subscriptionGroupId := Some groupId;
     Segment.resourceType := "Internal" |}.

(** A group of the workspace [ws1], as a row. *)
Definition groupNamed (id name : string) : SubscriptionGroup.t :=
  {| SubscriptionGroup.id := id;
     SubscriptionGroup.workspaceId := "ws1";
     SubscriptionGroup.name := name;
     SubscriptionGroup.type := OptOut;
     SubscriptionGroup.channelId := "c1" |}.

(** A small store to evaluate the operations on: workspace [ws1] with its
    email channel, its secret, the user [u1] known by the email address
    [a@b.com], the group [g1] with its segment [s1], and [u1] in [s1];
    workspace [ws2] with an email channel only. *)
Definition st : Store :=
  {| channel :=
       [{| Channel.id := "c1"; Channel.workspaceId := "ws1";
           Channel.name := "email" |};
        {| Channel.id := "c2"; Channel.workspaceId := "ws2";
           Channel.name := "email" |}];
     subscriptionGroup := [groupNamed "g1" "News"];
     segment := [segmentOfGroup "s1" "ws1" "g1"];
     segmentAssignment :=
       [{| SegmentAssignment.workspaceId := "ws1";
           SegmentAssignment.userId := "u1";
           SegmentAssignment.segmentId := "s1";
           SegmentAssignment.inSegment := true |}];
     secret :=
       [{| Secret.workspaceId := "ws1"; Secret.name := secretName;
           Secret.value := "s3cr3t" |}];
     userProperty :=
       [{| UserProperty.id := "p1"; UserProperty.workspaceId := "ws1";
           UserProperty.name := "email" |}];
     userPropertyAssignment :=
       [{| UserPropertyAssignment.userPropertyId := "p1";
           UserPropertyAssignment.userId := "u1";
           UserPropertyAssignment.value := JSON.quote "a@b.com" |}];
     userEvents := [] |}.

Definition world : World :=
  {| store := st; errorLog := []; uuidsDrawn := 0; clockReads := 0 |}.

(** The same with nothing registered yet: no group, no segment, no
    assignment. *)
Definition fresh : World :=
  {| store := setSegmentAssignment [] (setSegment []
                (setSubscriptionGroup [] st));
     errorLog := []; uuidsDrawn := 0; clockReads := 0 |}.

(** The same without the secret of [ws1]. *)
Definition keyless : World :=
  {| store :=
       {| channel := channel st; subscriptionGroup := subscriptionGroup st;
          segment := segment st; segmentAssignment := segmentAssignment st;
          secret := []; userProperty := userProperty st;
          userPropertyAssignment := userPropertyAssignment st;
          userEvents := [] |};
     errorLog := []; uuidsDrawn := 0; clockReads := 0 |}.

(** A store in which [ws1] already has a segment of the name of the group
    [g1] that is not the segment of a group. *)
Definition foreign : World :=
  {| store :=
       setSegmentAssignment []
         (setSegment
            [{| Segment.id := "s9";
                Segment.workspaceId := "ws1";
                Segment.name := "subscriptionGroup-g1";
                Segment.definition :=
                  {| entryNode := TraitSegmentNode "1" "plan" (Equals "pro");
                     nodes := [] |};
                Segment.subscriptionGroupId := None;
                Segment.resourceType := "Declarative" |}]
            (setSubscriptionGroup [] st));
     errorLog := []; uuidsDrawn := 0; clockReads := 0 |}.

(** The same with a second group, [g0], that has lost its segment, and a
    third, [g2], with its segment [s2]. *)
Definition odd : World :=
  {| store :=
       setSegment
         [segmentOfGroup "s1" "ws1" "g1"; segmentOfGroup "s2" "ws1" "g2"]
         (setSubscriptionGroup
            [groupNamed "g1" "News"; groupNamed "g0" "Alerts";
             groupNamed "g2" "Offers"] st);
     errorLog := []; uuidsDrawn := 0; clockReads := 0 |}.

(** The sample store with a second user, [u2], known by the same email
    address as [u1]. *)
Definition shared : World :=
  {| store :=
       {| channel := channel st; subscriptionGroup := subscriptionGroup st;
          segment := segment st; segmentAssignment := segmentAssignment st;
          secret := secret st; userProperty := userProperty st;
          userPropertyAssignment :=
            userPropertyAssignment st
            ++ [{| UserPropertyAssignment.userPropertyId := "p1";
                   UserPropertyAssignment.userId := "u2";
                   UserPropertyAssignment.value := JSON.quote "a@b.com" |}];
          userEvents := [] |};
     errorLog := []; uuidsDrawn := 0; clockReads := 0 |}.

End Reference.

(* ================================================================== *)
(** ** The operations of the module *)

Section SubscriptionGroups.

(** [generateSecureHash] of [crypto.ts], keyed by [key] over the record
    [value], and the two constants of [isomorphic-lib/src/constants]: the
    module imports them and they are not part of the sources at hand, so
    the operations are stated for every digest and every value of the
    constants. *)
Variable generateSecureHash :
  string -> list (string * JSONValue) -> string.
Variable SUBSCRIPTION_MANAGEMENT_PAGE : string.
Variable SUBSCRIPTION_SECRET_NAME : string.

(** The environment: the n-th value of [uuid()] and the n-th reading of
    [new Date().toISOString()]. *)
Variable uuid : nat -> string.
Variable toISOString : nat -> string.

(** The database's verdict on a write: [writeError table key w] is the
    error with which the write to [table] at the unique key [key], issued
    in the world [w], fails, when it fails.  The schema with its
    constraints and the availability of the database are not part of the
    sources, so the operations are stated for every verdict. *)
Variable writeError : string -> list string -> World -> option string.

(** A write issued to the database: it is carried out, or it fails with
    the database's error and writes nothing. *)
Definition write {A} (table : string) (key : list string) (op : Prisma A)
  : Prisma A :=
  fun w =>
    match writeError table key w with
    | Some e => (Throw e, w)
    | None => op w
    end.

Definition drawUuid : Prisma string :=
  fun w => (Normal (uuid (uuidsDrawn w)),
            {| store := store w; errorLog := errorLog w;
               uuidsDrawn := S (uuidsDrawn w); clockReads := clockReads w |}).

Definition newDate : Prisma string :=
  fun w => (Normal (toISOString (clockReads w)),
            {| store := store w; errorLog := errorLog w;
               uuidsDrawn := uuidsDrawn w; clockReads := S (clockReads w) |}).

(* ---------------------------------------------------------------- *)
(** *** upsertSubscriptionGroup *)

Definition segmentNameOf (id : string) : string :=
  "subscriptionGroup-" +:+ id.

Definition segmentDefinitionOf (id : string) : SegmentDefinition :=
  {| entryNode := SubscriptionGroupSegmentNode "1" id; nodes := [] |}.

Definition channel_findUnique (workspaceId name : string)
  : Prisma (option Channel.t) :=
  st ← getStore;
  mret (find (fun c => String.eqb (Channel.workspaceId c) workspaceId
                       && String.eqb (Channel.name c) name) (channel st)).

Definition isGroup (id : string) (g : SubscriptionGroup.t) : bool :=
  String.eqb (SubscriptionGroup.id g) id.

Definition isSegmentNamed (workspaceId name : string) (s : Segment.t)
  : bool :=
  String.eqb (Segment.workspaceId s) workspaceId
  && String.eqb (Segment.name s) name.

Definition renameGroup (name : string) (type : SubscriptionGroupType)
    (g : SubscriptionGroup.t) : SubscriptionGroup.t :=
  {| SubscriptionGroup.id := SubscriptionGroup.id g;
     SubscriptionGroup.workspaceId := SubscriptionGroup.workspaceId g;
     SubscriptionGroup.name := name;
     SubscriptionGroup.type := type;
     SubscriptionGroup.channelId := SubscriptionGroup.channelId g |}.

Definition upsertSubscriptionGroup (id name : string)
    (type : SubscriptionGroupType) (workspaceId : string)
  : Prisma (Result SubscriptionGroup.t) :=
  let segmentName := segmentNameOf id in
  let segmentDefinition := segmentDefinitionOf id in
  emailChannel ← channel_findUnique workspaceId "email";
  match emailChannel with
  | None => mret (err "Email channel not found")
  | Some emailChannel =>
      written ← transaction (both
        (write "subscriptionGroup" [id]
           (upsert subscriptionGroup setSubscriptionGroup (isGroup id)
              (mret {| SubscriptionGroup.id := id;
                       SubscriptionGroup.workspaceId := workspaceId;
                       SubscriptionGroup.name := name;
                       SubscriptionGroup.type := type;
                       SubscriptionGroup.channelId :=
                         Channel.id emailChannel |})
              (renameGroup name type)))
        (write "segment" [workspaceId; segmentName]
           (upsert segment setSegment (isSegmentNamed workspaceId segmentName)
              (rowId ← drawUuid;
               mret {| Segment.id := rowId;
                       Segment.workspaceId := workspaceId;
                       Segment.name := segmentName;
                       Segment.definition := segmentDefinition;
                       Segment.subscriptionGroupId := Some id;
                       Segment.resourceType := "Internal" |})
              (fun s => s))));
      mret (ok (fst written))
  end.

Definition subscriptionGroupToResource (subscriptionGroup : SubscriptionGroup.t)
  : SubscriptionGroupResource :=
  let type :=
    match SubscriptionGroup.type subscriptionGroup with
    | OptIn => OptIn
    | OptOut => OptOut
    end in
  {| sgr_id := SubscriptionGroup.id subscriptionGroup;
     sgr_workspaceId := SubscriptionGroup.workspaceId subscriptionGroup;
     sgr_name := SubscriptionGroup.name subscriptionGroup;
     sgr_type := type |}.

(* ---------------------------------------------------------------- *)
(** *** The hash and the link *)

Definition generateSubscriptionHash
    (workspaceId userId identifierKey identifier subscriptionSecret : string)
  : string :=
  let toHash := [("u", JString userId); ("w", JString workspaceId);
                 ("i", JString identifier); ("k", JString identifierKey)] in
  generateSecureHash subscriptionSecret toHash.

(** The object [params] of [generateSubscriptionChangeUrl]: its entries in
    the order they are written, [None] for a value that is [undefined]. *)
Definition subscriptionParams
    (workspaceId subscriptionSecret userId identifier identifierKey : string)
    (changedSubscription : option string)
    (subscriptionChange : option SubscriptionChange)
  : list (string * option string) :=
  let hash := generateSubscriptionHash workspaceId userId identifierKey
                identifier subscriptionSecret in
  [("w", Some workspaceId);
   ("i", Some identifier);
   ("ik", Some identifierKey);
   ("h", Some hash);
   ("s", changedSubscription);
   ("sub", Some (match subscriptionChange with
                 | Some Subscribe => "1"
                 | _ => "0"
                 end))].

(** [new URLSearchParams(record)]: every own property becomes an entry,
    its value converted to a string, [undefined] to the text
    [undefined]. *)
Definition URLSearchParams_ofRecord (record : list (string * option string))
  : list (string * string) :=
  map (fun e => (fst e, default "undefined" (snd e))) record.

Definition generateSubscriptionChangeUrl
    (workspaceId subscriptionSecret userId identifier identifierKey : string)
    (changedSubscription : option string)
    (subscriptionChange : option SubscriptionChange) : string :=
  let params := subscriptionParams workspaceId subscriptionSecret userId
                  identifier identifierKey changedSubscription
                  subscriptionChange in
  let queryString :=
    URLSearchParams.toString (URLSearchParams_ofRecord params) in
  "/dashboard" +:+ SUBSCRIPTION_MANAGEMENT_PAGE +:+ "?" +:+ queryString.

(** The reader of a link: the entries of the query that follows the fixed
    route and the question mark. *)
Definition searchParamsOf (url : string) : option (list (string * string)) :=
  URLSearchParams.parse <$>
    Str.stripPrefix ("/dashboard" +:+ SUBSCRIPTION_MANAGEMENT_PAGE +:+ "?")
      url.

(* ---------------------------------------------------------------- *)
(** *** Audit events *)

Definition buildSubscriptionChangeEventInner
    (messageId userId : string) (action : SubscriptionChange)
    (subscriptionGroupId timestamp : string) : JSONValue :=
  JObject
    [("userId", JString userId);
     ("timestamp", JString timestamp);
     ("messageId", JString messageId);
     ("type", JString "track");
     ("event", JString InternalEventType_SubscriptionChange);
     ("properties",
      JObject [("subscriptionId", JString subscriptionGroupId);
               ("action", JString (SubscriptionChange_value action))])].

(** The optional [messageId] and [currentTime] default, in this order, to
    [uuid()] and [new Date()]. *)
Definition buildSubscriptionChangeEvent (messageId : option string)
    (userId : string) (action : SubscriptionChange)
    (subscriptionGroupId : string) (currentTime : option string)
  : Prisma InsertUserEvent :=
  messageId ← match messageId with
              | Some m => mret m
              | None => drawUuid
              end;
  timestamp ← match currentTime with
              | Some t => mret t
              | None => newDate
              end;
  mret {| messageId := messageId;
          messageRaw :=
            JSON.stringify
              (buildSubscriptionChangeEventInner messageId userId action
                 subscriptionGroupId timestamp) |}.

(* ---------------------------------------------------------------- *)
(** *** getUserSubscriptions *)

(** What [include] joins to a group and to a segment. *)
Definition segmentsOfGroup (st : Store) (g : SubscriptionGroup.t)
  : list Segment.t :=
  filter (fun s => Segment.subscriptionGroupId s
                   = Some (SubscriptionGroup.id g)) (segment st).

Definition assignmentsOfSegment (st : Store) (userId : string)
    (s : Segment.t) : list SegmentAssignment.t :=
  filter (fun a => SegmentAssignment.segmentId a = Segment.id s
                   /\ SegmentAssignment.userId a = userId)
    (segmentAssignment st).

Definition subscriptionGroup_findMany_withSegments
    (workspaceId userId : string)
  : Prisma (list (SubscriptionGroup.t
                  * list (Segment.t * list SegmentAssignment.t))) :=
  st ← getStore;
  mret (map (fun g =>
               (g, map (fun s => (s, assignmentsOfSegment st userId s))
                     (segmentsOfGroup st g)))
          (orderByNameAsc SubscriptionGroup.name
             (filter (fun g => SubscriptionGroup.workspaceId g = workspaceId)
                (subscriptionGroup st)))).

(** The body of the [for] loop, over the groups still to visit. *)
Fixpoint collectSubscriptions
    (subscriptionGroups :
       list (SubscriptionGroup.t
             * list (Segment.t * list SegmentAssignment.t)))
    (subscriptions : list UserSubscriptionResource)
  : Prisma (list UserSubscriptionResource) :=
  match subscriptionGroups with
  | [] => mret subscriptions
  | (subscriptionGroup, segments) :: rest =>
      match head segments with
      | None =>
          _ ← logError "No segment found for subscription group";
          collectSubscriptions rest subscriptions
      | Some (_, assignments) =>
          let inSegment :=
            match head assignments with
            | Some a => SegmentAssignment.inSegment a
            | None => false
            end in
          collectSubscriptions rest
            (subscriptions
             ++ [{| usr_id := SubscriptionGroup.id subscriptionGroup;
                    usr_name := SubscriptionGroup.name subscriptionGroup;
                    isSubscribed := inSegment |}])
      end
  end.

Definition getUserSubscriptions (workspaceId userId : string)
  : Prisma (list UserSubscriptionResource) :=
  subscriptionGroups ←
    subscriptionGroup_findMany_withSegments workspaceId userId;
  collectSubscriptions subscriptionGroups [].

(* ---------------------------------------------------------------- *)
(** *** lookupUserForSubscriptions *)

Definition secret_findUnique (workspaceId name : string)
  : Prisma (option Secret.t) :=
  st ← getStore;
  mret (find (fun r => String.eqb (Secret.name r) name
                       && String.eqb (Secret.workspaceId r) workspaceId)
          (secret st)).

(** [userProperty.findUnique] with the assignments of the given value
    joined to the row. *)
Definition userProperty_findUnique_withAssignments
    (workspaceId name value : string)
  : Prisma (option (UserProperty.t * list UserPropertyAssignment.t)) :=
  st ← getStore;
  mret ((fun p =>
           (p, filter (fun a => UserPropertyAssignment.userPropertyId a
                                = UserProperty.id p
                                /\ UserPropertyAssignment.value a = value)
                 (userPropertyAssignment st)))
        <$> find (fun p => String.eqb (UserProperty.workspaceId p) workspaceId
                           && String.eqb (UserProperty.name p) name)
              (userProperty st)).

Definition lookupUserForSubscriptions
    (workspaceId identifier identifierKey hash : string)
  : Prisma (Result string) :=
  found ← both
    (secret_findUnique workspaceId SUBSCRIPTION_SECRET_NAME)
    (userProperty_findUnique_withAssignments workspaceId identifierKey
       (JSON.quote identifier));
  let subscriptionSecret := fst found in
  let userProperties := snd found in
  let userPropertyAssignment :=
    userProperties ≫= (fun p => head (snd p)) in
  match userPropertyAssignment with
  | None => mret (err "User not found")
  | Some userPropertyAssignment =>
      match subscriptionSecret with
      | None => throw "Subscription secret not found"
      | Some subscriptionSecret =>
          let userId :=
            UserPropertyAssignment.userId userPropertyAssignment in
          let expectedHash :=
            generateSubscriptionHash workspaceId userId identifierKey
              identifier (Secret.value subscriptionSecret) in
          if String.eqb expectedHash hash then mret (ok userId)
          else mret (err "Hash mismatch")
      end
  end.

(* ---------------------------------------------------------------- *)
(** *** updateUserSubscriptions *)

(** [subscriptionGroupId: { in: groupIds }]. *)
Definition groupIdIn (groupIds : list string) (v : option string) : bool :=
  match v with
  | Some g => bool_decide (g ∈ groupIds)
  | None => false
  end.

Definition segment_findMany_ofGroups (workspaceId : string)
    (groupIds : list string) : Prisma (list Segment.t) :=
  st ← getStore;
  mret (filter (fun s => Segment.workspaceId s = workspaceId
                         /\ groupIdIn groupIds (Segment.subscriptionGroupId s)
                            = true)
          (segment st)).

(** The [reduce] into [segmentBySubscriptionGroupId]: a later segment of a
    group replaces an earlier one, and a segment whose group id is falsy
    ([null] or the empty string) is left out.  The finite map holds the
    record's own properties; [recordGet] below reads the record as
    JavaScript does, own properties first and then the members every
    record inherits. *)
Definition indexBySubscriptionGroupId (segments : list Segment.t)
  : gmap string Segment.t :=
  foldl (fun acc s =>
           if truthy (Segment.subscriptionGroupId s)
           then match Segment.subscriptionGroupId s with
                | Some g => <[g := s]> acc
                | None => acc
                end
           else acc) ∅ segments.

Definition isAssignment (workspaceId userId segmentId : string)
    (a : SegmentAssignment.t) : bool :=
  String.eqb (SegmentAssignment.workspaceId a) workspaceId
  && String.eqb (SegmentAssignment.userId a) userId
  && String.eqb (SegmentAssignment.segmentId a) segmentId.

Definition setInSegment (b : bool) (a : SegmentAssignment.t)
  : SegmentAssignment.t :=
  {| SegmentAssignment.workspaceId := SegmentAssignment.workspaceId a;
     SegmentAssignment.userId := SegmentAssignment.userId a;
     SegmentAssignment.segmentId := SegmentAssignment.segmentId a;
     SegmentAssignment.inSegment := b |}.

(** The members that every record inherits from [Object.prototype]. *)
Definition objectPrototypeMembers : list string :=
  ["constructor"; "__defineGetter__"; "__defineSetter__"; "hasOwnProperty";
   "__lookupGetter__"; "__lookupSetter__"; "isPrototypeOf";
   "propertyIsEnumerable"; "toString"; "valueOf"; "__proto__";
   "toLocaleString"].

(** What [record[key]] reads from the record of segments: a segment the
    [reduce] wrote, a member the record inherits, or [undefined]. *)
Inductive RecordValue :=
| OwnSegment (segment : Segment.t)
| InheritedMember.

Definition recordGet (record : gmap string Segment.t) (key : string)
  : option RecordValue :=
  match record !! key with
  | Some segment => Some (OwnSegment segment)
  | None =>
      if bool_decide (key ∈ objectPrototypeMembers)
      then Some InheritedMember
      else None
  end.

(** [segment.id]: an inherited member, a function or the prototype
    itself, has none. *)
Definition RecordValue_id (v : RecordValue) : option string :=
  match v with
  | OwnSegment segment => Some (Segment.id segment)
  | InheritedMember => None
  end.

(** The client refuses an upsert whose unique key lacks a field, here a
    [segmentId] that is [undefined], before anything reaches the
    database. *)
Definition missingSegmentId : string := "Argument `segmentId` is missing.".

Definition segmentAssignment_upsert (workspaceId userId : string)
    (segmentId : option string) (inSegment : bool)
  : Prisma SegmentAssignment.t :=
  match segmentId with
  | None => throw missingSegmentId
  | Some segmentId =>
      write "segmentAssignment" [workspaceId; userId; segmentId]
        (upsert segmentAssignment setSegmentAssignment
           (isAssignment workspaceId userId segmentId)
           (mret {| SegmentAssignment.workspaceId := workspaceId;
                    SegmentAssignment.userId := userId;
                    SegmentAssignment.segmentId := segmentId;
                    SegmentAssignment.inSegment := inSegment |})
           (setInSegment inSegment))
  end.

(** The second [flatMap]: the upsert of a pair, or nothing and a logged
    error when the record reads as [undefined] at the group id. *)
Fixpoint segmentAssignmentUpdatesOf
    (segmentBySubscriptionGroupId : gmap string Segment.t)
    (workspaceId userId : string) (changePairs : list (string * bool))
  : Prisma (list (Prisma SegmentAssignment.t)) :=
  match changePairs with
  | [] => mret []
  | (subscriptionGroupId, isSubscribed) :: rest =>
      match recordGet segmentBySubscriptionGroupId subscriptionGroupId with
      | None =>
          _ ← logError "Segment not found for subscription group id";
          segmentAssignmentUpdatesOf segmentBySubscriptionGroupId
            workspaceId userId rest
      | Some segment =>
          updates ← segmentAssignmentUpdatesOf segmentBySubscriptionGroupId
                      workspaceId userId rest;
          mret (segmentAssignment_upsert workspaceId userId
                  (RecordValue_id segment) isSubscribed :: updates)
      end
  end.

(** [changes] is the record of subscription group id to the desired
    state, given as its entries in enumeration order, the order of
    [Object.keys] and of [R.toPairs]. *)
Definition updateUserSubscriptions (workspaceId userId : string)
    (changes : list (string * bool)) : Prisma unit :=
  segments ← segment_findMany_ofGroups workspaceId (map fst changes);
  let segmentBySubscriptionGroupId := indexBySubscriptionGroupId segments in
  let changePairs := changes in
  userEvents ← sequence
    (map (fun pair : string * bool =>
            buildSubscriptionChangeEvent None userId
              (if snd pair then Subscribe else UnSubscribe) (fst pair) None)
       changePairs);
  segmentAssignmentUpdates ←
    segmentAssignmentUpdatesOf segmentBySubscriptionGroupId workspaceId
      userId changePairs;
  _ ← promiseAll
        (map void segmentAssignmentUpdates
         ++ [write "userEvent" [workspaceId]
               (insertUserEvents workspaceId userEvents)]);
  mret tt.

(* ---------------------------------------------------------------- *)
(** *** What the properties speak about *)

(** The workspace's subscription secret, when it has one. *)
Definition subscriptionSecretOf (st : Store) (workspaceId : string)
  : option string :=
  Secret.value <$>
    find (fun r => String.eqb (Secret.name r) SUBSCRIPTION_SECRET_NAME
                   && String.eqb (Secret.workspaceId r) workspaceId)
      (secret st).

(** The assignments of the value [JSON.stringify(identifier)] to the
    workspace's user property [identifierKey]. *)
Definition assignmentsOfIdentifier (st : Store)
    (workspaceId identifierKey identifier : string)
  : list UserPropertyAssignment.t :=
  match find (fun p => String.eqb (UserProperty.workspaceId p) workspaceId
                       && String.eqb (UserProperty.name p) identifierKey)
          (userProperty st) with
  | Some p =>
      filter (fun a => UserPropertyAssignment.userPropertyId a
                       = UserProperty.id p
                       /\ UserPropertyAssignment.value a
                          = JSON.quote identifier)
        (userPropertyAssignment st)
  | None => []
  end.

(** The identifier maps to [userId]: it is assigned, and to that user
    only. *)
Definition identifierMapsTo (st : Store)
    (workspaceId identifierKey identifier userId : string) : Prop :=
  assignmentsOfIdentifier st workspaceId identifierKey identifier <> []
  /\ forall a,
       a ∈ assignmentsOfIdentifier st workspaceId identifierKey identifier ->
       UserPropertyAssignment.userId a = userId.



Definition segmentsNamed (st : Store) (workspaceId name : string)
  : list Segment.t :=
  filter (fun s => Segment.workspaceId s = workspaceId
                   /\ Segment.name s = name) (segment st).


(** The new rows of a successful call. *)
Definition createdGroup (id name : string) (type : SubscriptionGroupType)
    (workspaceId : string) (emailChannel : Channel.t) : SubscriptionGroup.t :=
  {| SubscriptionGroup.id := id;
     SubscriptionGroup.workspaceId := workspaceId;
     SubscriptionGroup.name := name;
     SubscriptionGroup.type := type;
     SubscriptionGroup.channelId := Channel.id emailChannel |}.

Definition createdSegment (rowId id workspaceId : string) : Segment.t :=
  {| Segment.id := rowId;
     Segment.workspaceId := workspaceId;
     Segment.name := segmentNameOf id;
     Segment.definition := segmentDefinitionOf id;
     Segment.subscriptionGroupId := Some id;
     Segment.resourceType := "Internal" |}.

(** The workspace's email channel, as [upsertSubscriptionGroup] finds it. *)
Definition emailChannelOf (st : Store) (workspaceId : string)
  : option Channel.t :=
  find (fun c => String.eqb (Channel.workspaceId c) workspaceId
                 && String.eqb (Channel.name c) "email") (channel st).

(** The group row that the group write of a call returns, and the group
    table it leaves. *)
Definition writtenGroup (id name : string) (type : SubscriptionGroupType)
    (workspaceId : string) (emailChannel : Channel.t)
    (groups : list SubscriptionGroup.t)
  : SubscriptionGroup.t * list SubscriptionGroup.t :=
  match find (isGroup id) groups with
  | Some g => (renameGroup name type g,
               updateWhere (isGroup id) (renameGroup name type) groups)
  | None =>
      (createdGroup id name type workspaceId emailChannel,
       groups ++ [createdGroup id name type workspaceId emailChannel])
  end.

(** The world in which the segment write of the transaction is issued:
    the group row is written. *)
Definition groupWritten (id name : string) (type : SubscriptionGroupType)
    (workspaceId : string) (emailChannel : Channel.t) (w : World) : World :=
  withStore
    (setSubscriptionGroup
       (snd (writtenGroup id name type workspaceId emailChannel
               (subscriptionGroup (store w))))) w.

(** What a call returns and leaves when both writes of its transaction
    are carried out. *)
Definition committed (id name : string) (type : SubscriptionGroupType)
    (workspaceId : string) (emailChannel : Channel.t) (w : World)
  : Completion (Result SubscriptionGroup.t) * World :=
  let groups := subscriptionGroup (store w) in
  let written :=
    match find (isGroup id) groups with
    | Some g => (renameGroup name type g,
                 updateWhere (isGroup id) (renameGroup name type) groups)
    | None =>
        (createdGroup id name type workspaceId emailChannel,
         groups ++ [createdGroup id name type workspaceId emailChannel])
    end in
  match find (isSegmentNamed workspaceId (segmentNameOf id))
          (segment (store w)) with
  | Some _ =>
      (Normal (ok (fst written)),
       withStore (setSubscriptionGroup (snd written)) w)
  | None =>
      (Normal (ok (fst written)),
       {| store :=
            setSegment
              (segment (store w)
               ++ [createdSegment (uuid (uuidsDrawn w)) id workspaceId])
              (setSubscriptionGroup (snd written) (store w));
          errorLog := errorLog w;
          uuidsDrawn := S (uuidsDrawn w);
          clockReads := clockReads w |})
  end.




(** The listing the spec describes.  A row says the user is in the
    segment when it is a row of that user and segment with [inSegment]
    true. *)
Definition subscribedIn (st : Store) (userId : string) (s : Segment.t)
  : bool :=
  existsb (fun a => bool_decide (SegmentAssignment.segmentId a = Segment.id s
                                 /\ SegmentAssignment.userId a = userId)
                    && SegmentAssignment.inSegment a)
    (segmentAssignment st).

(** The segment paired with a group, read off the segment table: the
    segment row that names the group. *)
Definition pairedSegmentOf (st : Store) (g : SubscriptionGroup.t)
  : option Segment.t :=
  find (fun s => bool_decide (Segment.subscriptionGroupId s
                              = Some (SubscriptionGroup.id g)))
    (segment st).

(** The entry of a group in the listing: none when no segment is paired
    with it. *)
Definition listedEntry (st : Store) (userId : string)
    (g : SubscriptionGroup.t) : option UserSubscriptionResource :=
  match pairedSegmentOf st g with
  | Some s =>
      Some {| usr_id := SubscriptionGroup.id g;
              usr_name := SubscriptionGroup.name g;
              isSubscribed := subscribedIn st userId s |}
  | None => None
  end.

(** The listing of a user, read off the tables in the order of the group
    table: the entries of the groups of the workspace. *)
Definition listing (st : Store) (workspaceId userId : string)
  : list UserSubscriptionResource :=
  omap (listedEntry st userId)
    (filter (fun g => SubscriptionGroup.workspaceId g = workspaceId)
       (subscriptionGroup st)).

(** The assignment rows of a user and a segment say the same: what the
    key of the assignment table gives, which keeps one row for a user and
    a segment. *)
Definition assignmentsAgree (st : Store) (userId : string) : Prop :=
  forall a b,
    a ∈ segmentAssignment st -> b ∈ segmentAssignment st ->
    SegmentAssignment.userId a = userId ->
    SegmentAssignment.userId b = userId ->
    SegmentAssignment.segmentId a = SegmentAssignment.segmentId b ->
    SegmentAssignment.inSegment a = SegmentAssignment.inSegment b.

(** The groups of the workspace that have a paired segment. *)
Definition groupsWithSegment (st : Store) (workspaceId : string)
  : list SubscriptionGroup.t :=
  filter (fun g => segmentsOfGroup st g <> []
                   /\ SubscriptionGroup.workspaceId g = workspaceId)
    (subscriptionGroup st).

(** The world after some lines were logged. *)
Definition logged (lines : list string) (w : World) : World :=
  {| store := store w; errorLog := errorLog w ++ lines;
     uuidsDrawn := uuidsDrawn w; clockReads := clockReads w |}.

(** The entry the loop of [getUserSubscriptions] pushes for a group row
    and what is joined to it, if it pushes one. *)
Definition pushedSubscription
    (row : SubscriptionGroup.t * list (Segment.t * list SegmentAssignment.t))
  : option UserSubscriptionResource :=
  match head (snd row) with
  | None => None
  | Some (_, assignments) =>
      Some {| usr_id := SubscriptionGroup.id (fst row);
              usr_name := SubscriptionGroup.name (fst row);
              isSubscribed :=
                match head assignments with
                | Some a => SegmentAssignment.inSegment a
                | None => false
                end |}
  end.


(** The audit events of a list of changes, the first of them built with
    the [n]-th uuid and the [c]-th reading of the clock: one event for
    each pair, Subscribe for [true] and UnSubscribe for [false]. *)
Fixpoint auditEvents (userId : string) (n c : nat)
    (changes : list (string * bool)) : list InsertUserEvent :=
  match changes with
  | [] => []
  | entry :: rest =>
      {| messageId := uuid n;
         messageRaw :=
           JSON.stringify
             (buildSubscriptionChangeEventInner (uuid n) userId
                (if snd entry then Subscribe else UnSubscribe) (fst entry)
                (toISOString c)) |}
      :: auditEvents userId (S n) (S c) rest
  end.

(** The segments that back a group in a workspace, and the one an update
    writes to: none for the empty group id, else the last of them. *)
Definition backingSegments (st : Store) (workspaceId groupId : string)
  : list Segment.t :=
  filter (fun s => Segment.workspaceId s = workspaceId
                   /\ Segment.subscriptionGroupId s = Some groupId)
    (segment st).

Definition writtenSegment (st : Store) (workspaceId groupId : string)
  : option Segment.t :=
  if Str.isEmpty groupId then None
  else last (backingSegments st workspaceId groupId).

(** The assignment writes of a list of changes: for each pair that has a
    segment to write to, the id of that segment and the desired state. *)
Definition assignmentWrites (st : Store) (workspaceId : string)
    (changes : list (string * bool)) : list (string * bool) :=
  omap (fun pair =>
          (fun s => (Segment.id s, snd pair))
            <$> writtenSegment st workspaceId (fst pair)) changes.

(** What an update requests for a pair: an upsert at the id of the
    segment it writes to; an upsert without a segment id, when there is no
    such segment and the group id names a member that every record
    inherits; or nothing, and then a line is logged. *)
Definition assignmentRequest (st : Store) (workspaceId : string)
    (pair : string * bool) : option (option string * bool) :=
  match writtenSegment st workspaceId (fst pair) with
  | Some s => Some (Some (Segment.id s), snd pair)
  | None =>
      if bool_decide (fst pair ∈ objectPrototypeMembers)
      then Some (None, snd pair)
      else None
  end.

(** The write of a request that has a segment id. *)
Definition validRequest (request : option string * bool)
  : option (string * bool) :=
  (fun segmentId => (segmentId, snd request)) <$> fst request.

(** The pairs an update logs and skips, and the pairs for which it
    requests an upsert without a segment id. *)
Definition loggedChanges (st : Store) (workspaceId : string)
    (changes : list (string * bool)) : list (string * bool) :=
  filter (fun pair => assignmentRequest st workspaceId pair = None) changes.

Definition invalidChanges (st : Store) (workspaceId : string)
    (changes : list (string * bool)) : list (string * bool) :=
  filter (fun pair => writtenSegment st workspaceId (fst pair) = None
                      /\ fst pair ∈ objectPrototypeMembers) changes.

(** One upsert of an assignment, on the rows of the table. *)
Definition writeAssignment (workspaceId userId : string)
    (rows : list SegmentAssignment.t) (write : string * bool)
  : list SegmentAssignment.t :=
  match find (isAssignment workspaceId userId (fst write)) rows with
  | Some _ =>
      updateWhere (isAssignment workspaceId userId (fst write))
        (setInSegment (snd write)) rows
  | None =>
      rows ++ [{| SegmentAssignment.workspaceId := workspaceId;
                  SegmentAssignment.userId := userId;
                  SegmentAssignment.segmentId := fst write;
                  SegmentAssignment.inSegment := snd write |}]
  end.



(* ---------------------------------------------------------------- *)
(** *** What the further properties speak about *)

(** The bytes a serialized query is made of: the bytes the serializer
    leaves as they are, [+] for a space, [%] opening an escape, and the
    separators [&] and [=]. *)
Definition isQueryByte (c : ascii) : bool :=
  URLSearchParams.isPlain c || Ascii.eqb c "+" || Ascii.eqb c "%"
  || Ascii.eqb c "&" || Ascii.eqb c "=".

Fixpoint allBytes (p : ascii -> bool) (s : string) : bool :=
  match s with
  | EmptyString => true
  | String c r => p c && allBytes p r
  end.

(** The text of the [sub] parameter. *)
Definition subFlag (subscriptionChange : option SubscriptionChange) : string :=
  match subscriptionChange with
  | Some Subscribe => "1"
  | _ => "0"
  end.

(** The groups of the workspace that no segment is joined to. *)
Definition groupsWithoutSegment (st : Store) (workspaceId : string)
  : list SubscriptionGroup.t :=
  filter (fun g => segmentsOfGroup st g = []
                   /\ SubscriptionGroup.workspaceId g = workspaceId)
    (subscriptionGroup st).

(** The entry of a group as the loop of [getUserSubscriptions] reads it:
    from the first segment joined to the group, the first assignment row
    of the user. *)
Definition firstRowSubscription (st : Store) (userId : string)
    (g : SubscriptionGroup.t) : UserSubscriptionResource :=
  {| usr_id := SubscriptionGroup.id g;
     usr_name := SubscriptionGroup.name g;
     isSubscribed :=
       match head (segmentsOfGroup st g) with
       | Some s =>
           match head (assignmentsOfSegment st userId s) with
           | Some a => SegmentAssignment.inSegment a
           | None => false
           end
       | None => false
       end |}.


(** The unique key of an assignment row. *)
Definition assignmentKey (a : SegmentAssignment.t)
  : string * string * string :=
  (SegmentAssignment.workspaceId a, SegmentAssignment.userId a,
   SegmentAssignment.segmentId a).

(** The rows of the assignment table that are not rows of the user in the
    workspace. *)
Definition assignmentsOfOthers (workspaceId userId : string)
    (rows : list SegmentAssignment.t) : list SegmentAssignment.t :=
  filter (fun a => ~ (SegmentAssignment.workspaceId a = workspaceId
                      /\ SegmentAssignment.userId a = userId)) rows.


(** Reading back the first byte of an escaped string: the byte and what
    follows its escape.  A bare quote, which [JSON.escape] never writes, and
    the empty string read as nothing. *)
Definition unescapeHead (s : string) : option (ascii * string) :=
  match s with
  | EmptyString => None
  | String c r =>
      if Nat.eqb (nat_of_ascii c) 34 then None
      else if Nat.eqb (nat_of_ascii c) 92 then
        match r with
        | EmptyString => None
        | String x r' =>
            let n := nat_of_ascii x in
            if Nat.eqb n 34 then Some (ascii_of_nat 34, r')
            else if Nat.eqb n 92 then Some (ascii_of_nat 92, r')
            else if Nat.eqb n 98 then Some (ascii_of_nat 8, r')
            else if Nat.eqb n 102 then Some (ascii_of_nat 12, r')
            else if Nat.eqb n 110 then Some (ascii_of_nat 10, r')
            else if Nat.eqb n 114 then Some (ascii_of_nat 13, r')
            else if Nat.eqb n 116 then Some (ascii_of_nat 9, r')
            else
              match r' with
              | String _ (String _ (String h (String l r''))) =>
                  match URLSearchParams.hexValue h,
                        URLSearchParams.hexValue l with
                  | Some x, Some y => Some (ascii_of_nat (16 * x + y), r'')
                  | _, _ => None
                  end
              | _ => None
              end
        end
      else Some (c, r)
  end.


(* ---------------------------------------------------------------- *)
(** *** The parser of query strings inverts the serializer *)

Section FormRoundTrip.
Import URLSearchParams.

Lemma app_String x (a b : string) : String x a +:+ b = String x (a +:+ b).
Proof. reflexivity. Qed.

Lemma app_Empty (b : string) : "" +:+ b = b.
Proof. reflexivity. Qed.

Lemma string_app_assoc (a b c : string) : (a +:+ b) +:+ c = a +:+ (b +:+ c).
Proof.
  induction a as [|x a IH]; [reflexivity|].
  rewrite !app_String. now f_equal.
Qed.

Lemma string_app_nil_r (a : string) : a +:+ "" = a.
Proof.
  induction a as [|x a IH]; [reflexivity|].
  rewrite app_String. now f_equal.
Qed.

Lemma has_app c a b : Str.has c (a +:+ b) = Str.has c a || Str.has c b.
Proof.
  induction a as [|x a IH]; [reflexivity|].
  rewrite app_String. simpl. now rewrite IH, orb_assoc.
Qed.

Lemma decode_serializeByte c t :
  decodeComponent (serializeByte c +:+ t) = String c (decodeComponent t).
Proof.
  destruct c as [[] [] [] [] [] [] [] []]; reflexivity.
Qed.

Lemma decode_serializeBytes s :
  decodeComponent (serializeBytes s) = s.
Proof.
  induction s as [|c s IH]; [reflexivity|].
  simpl serializeBytes. rewrite decode_serializeByte. now rewrite IH.
Qed.

Lemma serializeByte_no_amp c : Str.has "&" (serializeByte c) = false.
Proof. destruct c as [[] [] [] [] [] [] [] []]; reflexivity. Qed.

Lemma serializeByte_no_eq c : Str.has "=" (serializeByte c) = false.
Proof. destruct c as [[] [] [] [] [] [] [] []]; reflexivity. Qed.

Lemma serializeBytes_no_amp s : Str.has "&" (serializeBytes s) = false.
Proof.
  induction s as [|c s IH]; [reflexivity|].
  simpl. now rewrite has_app, serializeByte_no_amp, IH.
Qed.

Lemma serializeBytes_no_eq s : Str.has "=" (serializeBytes s) = false.
Proof.
  induction s as [|c s IH]; [reflexivity|].
  simpl. now rewrite has_app, serializeByte_no_eq, IH.
Qed.


Lemma split_no_sep sep s :
  Str.has sep s = false -> Str.split sep s = [s].
Proof.
  induction s as [|a r IH]; simpl; [reflexivity|].
  intros H. apply orb_false_iff in H as [Ha Hr].
  rewrite Ha, (IH Hr). reflexivity.
Qed.

Lemma split_app sep a b :
  Str.has sep a = false ->
  Str.split sep (a +:+ String sep b) = a :: Str.split sep b.
Proof.
  induction a as [|x a IH]; simpl; intros H.
  - now rewrite Ascii.eqb_refl.
  - apply orb_false_iff in H as [Hx Ha].
    rewrite Hx, (IH Ha). reflexivity.
Qed.

Lemma cut_app sep a b :
  Str.has sep a = false ->
  Str.cut sep (a +:+ String sep b) = (a, Some b).
Proof.
  induction a as [|x a IH]; simpl; intros H.
  - now rewrite Ascii.eqb_refl.
  - apply orb_false_iff in H as [Hx Ha].
    rewrite Hx, (IH Ha). reflexivity.
Qed.

Lemma serializeEntry_no_amp e : Str.has "&" (serializeEntry e) = false.
Proof.
  unfold serializeEntry. rewrite !has_app.
  now rewrite !serializeBytes_no_amp.
Qed.

Lemma serializeEntry_nonempty e : Str.isEmpty (serializeEntry e) = false.
Proof.
  unfold serializeEntry. destruct (serializeBytes (fst e)); reflexivity.
Qed.

Lemma parseSequence_serializeEntry e : parseSequence (serializeEntry e) = e.
Proof.
  destruct e as [k v]. unfold parseSequence, serializeEntry. simpl fst; simpl snd.
  change ("=" +:+ serializeBytes v) with (String "=" (serializeBytes v)).
  rewrite cut_app by apply serializeBytes_no_eq.
  simpl. now rewrite !decode_serializeBytes.
Qed.

Lemma parse_toString entries : parse (toString entries) = entries.
Proof.
  unfold parse, toString.
  induction entries as [|e rest IH]; [reflexivity|].
  destruct rest as [|e' rest'].
  - simpl map at 2. simpl Str.join.
    rewrite split_no_sep by apply serializeEntry_no_amp.
    rewrite filter_cons_True by apply serializeEntry_nonempty.
    simpl. now rewrite parseSequence_serializeEntry.
  - change (Str.join "&" (map serializeEntry (e :: e' :: rest')))
      with (serializeEntry e
            +:+ String "&" (Str.join "&" (map serializeEntry (e' :: rest')))).
    rewrite split_app by apply serializeEntry_no_amp.
    rewrite filter_cons_True by apply serializeEntry_nonempty.
    rewrite map_cons, parseSequence_serializeEntry. f_equal. exact IH.
Qed.

End FormRoundTrip.

(* ---------------------------------------------------------------- *)
(** *** lookupUserForSubscriptions *)

(** The lookup in one equation: what it answers, in a world it leaves as
    it found it. *)
Lemma lookupUserForSubscriptions_eq workspaceId identifier identifierKey hash w :
  lookupUserForSubscriptions workspaceId identifier identifierKey hash w =
  (match head (assignmentsOfIdentifier (store w) workspaceId identifierKey
                 identifier) with
   | None => Normal (err "User not found")
   | Some a =>
       match subscriptionSecretOf (store w) workspaceId with
       | None => Throw "Subscription secret not found"
       | Some subscriptionSecret =>
           if String.eqb
                (generateSubscriptionHash workspaceId
                   (UserPropertyAssignment.userId a) identifierKey identifier
                   subscriptionSecret) hash
           then Normal (ok (UserPropertyAssignment.userId a))
           else Normal (err "Hash mismatch")
       end
   end, w).
Proof.
  unfold lookupUserForSubscriptions, secret_findUnique,
    userProperty_findUnique_withAssignments, assignmentsOfIdentifier,
    subscriptionSecretOf.
  run.
  destruct (find _ (userProperty (store w))) as [p|]; simpl.
  - destruct (head _) as [a|]; simpl; [|reflexivity].
    destruct (find _ (secret (store w))) as [r|]; simpl; [|reflexivity].
    destruct (String.eqb _ hash); reflexivity.
  - reflexivity.
Qed.

(** C10. lookupUserForSubscriptions is read-only: whatever the inputs and
    whatever the outcome (a user id, the typed errors "User not found" and
    "Hash mismatch", or the thrown missing-secret fault), the world after
    the call, and with it every table of the store, is the world before
    it. *)
Theorem lookupUserForSubscriptions_read_only
    workspaceId identifier identifierKey hash w :
  snd (lookupUserForSubscriptions workspaceId identifier identifierKey hash w)
  = w
  /\ store (snd (lookupUserForSubscriptions workspaceId identifier
                   identifierKey hash w)) = store w.
Proof.
  rewrite lookupUserForSubscriptions_eq. split; reflexivity.
Qed.

(** C4 (amended). With no subscription secret in the workspace, the lookup
    throws "Subscription secret not found" when the identifier is assigned
    to some user, and returns the typed error "User not found" when it is
    not: the user is checked before the secret. *)
Theorem lookupUserForSubscriptions_missing_secret
    workspaceId identifier identifierKey hash w :
  subscriptionSecretOf (store w) workspaceId = None ->
  (assignmentsOfIdentifier (store w) workspaceId identifierKey identifier
     <> [] ->
   lookupUserForSubscriptions workspaceId identifier identifierKey hash w
   = (Throw "Subscription secret not found", w))
  /\ (assignmentsOfIdentifier (store w) workspaceId identifierKey identifier
        = [] ->
      lookupUserForSubscriptions workspaceId identifier identifierKey hash w
      = (Normal (err "User not found"), w)).
Proof.
  intros Hsecret. rewrite lookupUserForSubscriptions_eq, Hsecret.
  split; intros Hassigned.
  - destruct (assignmentsOfIdentifier _ _ _ _) as [|a rest];
      [contradiction | reflexivity].
  - now rewrite Hassigned.
Qed.

(* ---------------------------------------------------------------- *)
(** *** The link and the hash *)

Lemma stripPrefix_app p q : Str.stripPrefix p (p +:+ q) = Some q.
Proof.
  induction p as [|a p IH]; [now destruct q|].
  rewrite app_String. simpl. now rewrite Ascii.eqb_refl.
Qed.

(** Reading a built link gives back the entries it was built from. *)
Lemma searchParamsOf_generateSubscriptionChangeUrl
    workspaceId subscriptionSecret userId identifier identifierKey
    changedSubscription subscriptionChange :
  searchParamsOf
    (generateSubscriptionChangeUrl workspaceId subscriptionSecret userId
       identifier identifierKey changedSubscription subscriptionChange)
  = Some (URLSearchParams_ofRecord
            (subscriptionParams workspaceId subscriptionSecret userId
               identifier identifierKey changedSubscription
               subscriptionChange)).
Proof.
  unfold searchParamsOf, generateSubscriptionChangeUrl.
  rewrite <- (string_app_assoc SUBSCRIPTION_MANAGEMENT_PAGE "?").
  rewrite <- (string_app_assoc "/dashboard" (_ +:+ "?")).
  rewrite stripPrefix_app. simpl. now rewrite parse_toString.
Qed.

(** C1 (amended). Round trip of building and verifying a link: when the
    workspace's subscription secret is [subscriptionSecret] and the
    identifier is assigned under the identifier key to [userId] and to no
    other user, the link built by generateSubscriptionChangeUrl carries the
    workspace id, the identifier, the identifier key and a hash on which
    lookupUserForSubscriptions returns ok with exactly that [userId].  This
    holds for every generateSecureHash. *)
Theorem lookup_of_generated_url
    w workspaceId subscriptionSecret userId identifier identifierKey
    changedSubscription subscriptionChange :
  subscriptionSecretOf (store w) workspaceId = Some subscriptionSecret ->
  identifierMapsTo (store w) workspaceId identifierKey identifier userId ->
  exists params hash,
    searchParamsOf
      (generateSubscriptionChangeUrl workspaceId subscriptionSecret userId
         identifier identifierKey changedSubscription subscriptionChange)
    = Some params
    /\ URLSearchParams.get "w" params = Some workspaceId
    /\ URLSearchParams.get "i" params = Some identifier
    /\ URLSearchParams.get "ik" params = Some identifierKey
    /\ URLSearchParams.get "h" params = Some hash
    /\ lookupUserForSubscriptions workspaceId identifier identifierKey hash w
       = (Normal (ok userId), w).
Proof.
  intros Hsecret [Hassigned Huser].
  eexists _, _. split; [apply searchParamsOf_generateSubscriptionChangeUrl|].
  repeat (split; [reflexivity|]).
  rewrite lookupUserForSubscriptions_eq, Hsecret.
  destruct (assignmentsOfIdentifier _ _ _ _) as [|a rest]; [contradiction|].
  simpl. rewrite (Huser a) by apply list_elem_of_here.
  now rewrite String.eqb_refl.
Qed.

(** C9. Anonymity of the link: two links built from inputs that differ in
    the user id only carry the same entries, names and values, in the same
    order, the entry of the hash [h] apart; each carries one entry [h],
    the hash of its user id, and the user id enters the link through that
    hash alone. *)
Theorem generated_url_hides_userId
    workspaceId subscriptionSecret userId userId' identifier identifierKey
    changedSubscription subscriptionChange :
  exists params params',
    searchParamsOf
      (generateSubscriptionChangeUrl workspaceId subscriptionSecret userId
         identifier identifierKey changedSubscription subscriptionChange)
    = Some params
    /\ searchParamsOf
         (generateSubscriptionChangeUrl workspaceId subscriptionSecret userId'
            identifier identifierKey changedSubscription subscriptionChange)
       = Some params'
    /\ filter (fun e => fst e <> "h") params
       = filter (fun e => fst e <> "h") params'
    /\ filter (fun e => fst e = "h") params
       = [("h", generateSubscriptionHash workspaceId userId identifierKey
                  identifier subscriptionSecret)]
    /\ filter (fun e => fst e = "h") params'
       = [("h", generateSubscriptionHash workspaceId userId' identifierKey
                  identifier subscriptionSecret)].
Proof.
  eexists _, _.
  split; [apply searchParamsOf_generateSubscriptionChangeUrl|].
  split; [apply searchParamsOf_generateSubscriptionChangeUrl|].
  repeat split.
Qed.

(** C8 (amended). The query of every built link carries [w], [i], [ik], [h]
    and [sub]; [sub] is "1" for Subscribe and "0" otherwise, that is for
    UnSubscribe and also when no change is given; and when a target group
    is given, [s] carries its id. *)
Theorem generated_url_parameters
    workspaceId subscriptionSecret userId identifier identifierKey
    changedSubscription subscriptionChange :
  exists params,
    searchParamsOf
      (generateSubscriptionChangeUrl workspaceId subscriptionSecret userId
         identifier identifierKey changedSubscription subscriptionChange)
    = Some params
    /\ URLSearchParams.get "w" params = Some workspaceId
    /\ URLSearchParams.get "i" params = Some identifier
    /\ URLSearchParams.get "ik" params = Some identifierKey
    /\ URLSearchParams.get "h" params
       = Some (generateSubscriptionHash workspaceId userId identifierKey
                 identifier subscriptionSecret)
    /\ URLSearchParams.get "sub" params
       = Some (match subscriptionChange with
               | Some Subscribe => "1"
               | Some UnSubscribe => "0"
               | None => "0"
               end)
    /\ match changedSubscription with
       | Some target => URLSearchParams.get "s" params = Some target
       | None => True
       end.
Proof.
  eexists. split; [apply searchParamsOf_generateSubscriptionChangeUrl|].
  do 5 (split; [reflexivity|]).
  now destruct changedSubscription.
Qed.





(* ---------------------------------------------------------------- *)
(** *** upsertSubscriptionGroup *)

Lemma updateWhere_same {A} (p : A -> bool) (rows : list A) :
  updateWhere p (fun r => r) rows = rows.
Proof.
  induction rows as [|r rest IH]; simpl; [reflexivity|].
  destruct (p r); [reflexivity | now rewrite IH].
Qed.

Lemma find_updateWhere {A} (p : A -> bool) (f : A -> A) rows r :
  (forall x, p (f x) = p x) ->
  find p rows = Some r -> find p (updateWhere p f rows) = Some (f r).
Proof.
  intros Hp. induction rows as [|x rest IH]; simpl; [discriminate|].
  destruct (p x) eqn:Hx; simpl.
  - intros [= ->]. now rewrite Hp, Hx.
  - rewrite Hx. exact IH.
Qed.

Lemma find_app_new {A} (p : A -> bool) rows x :
  find p rows = None -> p x = true -> find p (rows ++ [x]) = Some x.
Proof.
  induction rows as [|y rest IH]; simpl; intros Hnone Hx.
  - now rewrite Hx.
  - destruct (p y); [discriminate | now apply IH].
Qed.



Lemma isSegmentNamed_iff workspaceId name s :
  isSegmentNamed workspaceId name s = true
  <-> Segment.workspaceId s = workspaceId /\ Segment.name s = name.
Proof.
  unfold isSegmentNamed. now rewrite andb_true_iff, !String.eqb_eq.
Qed.

(** The call in one equation: the typed error without an email channel,
    the database's error and the world as it was when a write of the
    transaction fails, and both writes otherwise. *)
Lemma upsertSubscriptionGroup_eq id name type workspaceId w :
  upsertSubscriptionGroup id name type workspaceId w =
  match emailChannelOf (store w) workspaceId with
  | None => (Normal (err "Email channel not found"), w)
  | Some emailChannel =>
      match writeError "subscriptionGroup" [id] w with
      | Some e => (Throw e, w)
      | None =>
          match writeError "segment" [workspaceId; segmentNameOf id]
                  (groupWritten id name type workspaceId emailChannel w) with
          | Some e => (Throw e, w)
          | None => committed id name type workspaceId emailChannel w
          end
      end
  end.
Proof.
  unfold upsertSubscriptionGroup, channel_findUnique, emailChannelOf, drawUuid,
    committed, groupWritten, writtenGroup, createdGroup, createdSegment,
    write.
  run.
  destruct (find _ (channel (store w))) as [c|]; [|reflexivity].
  destruct (writeError "subscriptionGroup" [id] w) as [e|]; [reflexivity|].
  destruct w as [st log n t]; simpl.
  destruct (find (isGroup id) (subscriptionGroup st)) as [g|];
    unfold withStore; simpl;
    (match goal with
     | |- context [writeError "segment" ?k ?w1] =>
         destruct (writeError "segment" k w1) as [e|]; [reflexivity|]
     end;
     destruct (find (isSegmentNamed workspaceId (segmentNameOf id))
                 (segment st)) as [s|]; simpl;
     [rewrite updateWhere_same; destruct st; reflexivity | reflexivity]).
Qed.


(** What a successful call leaves behind: the email channel it found, the
    group row it returned, and a segment of the group's segment name in
    the workspace. *)
Lemma upsertSubscriptionGroup_ok_facts id name type workspaceId w g w1 :
  upsertSubscriptionGroup id name type workspaceId w = (Normal (ok g), w1) ->
  channel (store w1) = channel (store w)
  /\ is_Some (emailChannelOf (store w) workspaceId)
  /\ find (isGroup id) (subscriptionGroup (store w1)) = Some g
  /\ is_Some (find (isSegmentNamed workspaceId (segmentNameOf id))
                (segment (store w1))).
Proof.
  rewrite upsertSubscriptionGroup_eq.
  destruct (emailChannelOf (store w) workspaceId) as [c|]; [|discriminate].
  destruct (writeError "subscriptionGroup" [id] w) as [e|]; [discriminate|].
  destruct (writeError "segment" _ _) as [e|]; [discriminate|].
  unfold committed.
  assert (Hgroup :
    forall written,
      written = match find (isGroup id) (subscriptionGroup (store w)) with
                | Some g0 =>
                    (renameGroup name type g0,
                     updateWhere (isGroup id) (renameGroup name type)
                       (subscriptionGroup (store w)))
                | None =>
                    (createdGroup id name type workspaceId c,
                     subscriptionGroup (store w)
                     ++ [createdGroup id name type workspaceId c])
                end ->
      find (isGroup id) (snd written) = Some (fst written)).
  { intros written ->.
    destruct (find (isGroup id) (subscriptionGroup (store w))) as [g0|] eqn:Hg;
      simpl.
    - now apply find_updateWhere.
    - apply find_app_new; [exact Hg|]. unfold isGroup. simpl.
      apply String.eqb_refl. }
  cbv zeta.
  destruct (find (isSegmentNamed _ _) (segment (store w))) as [s|] eqn:Hs;
    intros [= <- <-]; simpl.
  - repeat split; eauto.
  - repeat split; eauto.
    rewrite find_app_new with (x := createdSegment _ id workspaceId); eauto.
    apply isSegmentNamed_iff. now split.
Qed.

(** C6 (amended). A second call of upsertSubscriptionGroup with the same
    id and the same workspace, after a successful first one, changes the
    group's name and type and nothing else: the group row keeps its id,
    workspace and channel, and the world is the one after the first call
    with that row renamed, so the backing segment, with its definition and
    its id, and the whole segment table are as they were; when a write of
    the second call fails, the call throws and the world is the one after
    the first call.  Should the second call name another workspace, the
    group row still changes in name and type only, and every segment row
    written before, the backing segment among them, is left as it was; a
    segment row may be added. *)
Theorem upsertSubscriptionGroup_second_call
    id name1 type1 workspaceId w g1 w1 name2 type2 :
  upsertSubscriptionGroup id name1 type1 workspaceId w
  = (Normal (ok g1), w1) ->
  let renamed :=
    updateWhere (isGroup id) (renameGroup name2 type2)
      (subscriptionGroup (store w1)) in
  let g2 := renameGroup name2 type2 g1 in
  (upsertSubscriptionGroup id name2 type2 workspaceId w1
   = match writeError "subscriptionGroup" [id] w1 with
     | Some e => (Throw e, w1)
     | None =>
         match writeError "segment" [workspaceId; segmentNameOf id]
                 (withStore (setSubscriptionGroup renamed) w1) with
         | Some e => (Throw e, w1)
         | None =>
             (Normal (ok g2), withStore (setSubscriptionGroup renamed) w1)
         end
     end
   /\ segment (store (snd (upsertSubscriptionGroup id name2 type2
                             workspaceId w1)))
      = segment (store w1)
   /\ SubscriptionGroup.id g2 = SubscriptionGroup.id g1
   /\ SubscriptionGroup.workspaceId g2 = SubscriptionGroup.workspaceId g1
   /\ SubscriptionGroup.channelId g2 = SubscriptionGroup.channelId g1
   /\ SubscriptionGroup.name g2 = name2
   /\ SubscriptionGroup.type g2 = type2)
  /\ forall workspaceId2,
      let w2 := snd (upsertSubscriptionGroup id name2 type2 workspaceId2 w1) in
      (exists created, segment (store w2) = segment (store w1) ++ created)
      /\ (subscriptionGroup (store w2) = subscriptionGroup (store w1)
          \/ subscriptionGroup (store w2) = renamed).
Proof.
  intros Hfirst renamed g2.
  destruct (upsertSubscriptionGroup_ok_facts _ _ _ _ _ _ _ Hfirst)
    as (Hchannel & [c Hc] & Hgroup & [s Hs]).
  assert (Hwritten : forall workspaceId2 c2,
            groupWritten id name2 type2 workspaceId2 c2 w1
            = withStore (setSubscriptionGroup renamed) w1).
  { intros workspaceId2 c2. unfold groupWritten, writtenGroup.
    now rewrite Hgroup. }
  assert (Hsecond :
    upsertSubscriptionGroup id name2 type2 workspaceId w1
    = match writeError "subscriptionGroup" [id] w1 with
      | Some e => (Throw e, w1)
      | None =>
          match writeError "segment" [workspaceId; segmentNameOf id]
                  (withStore (setSubscriptionGroup renamed) w1) with
          | Some e => (Throw e, w1)
          | None =>
              (Normal (ok g2), withStore (setSubscriptionGroup renamed) w1)
          end
      end).
  { rewrite upsertSubscriptionGroup_eq. unfold emailChannelOf.
    rewrite Hchannel. fold (emailChannelOf (store w) workspaceId).
    rewrite Hc, Hwritten. unfold committed. cbv zeta.
    now rewrite Hgroup, Hs. }
  split.
  - split; [exact Hsecond|]. split; [|now repeat split].
    rewrite Hsecond.
    destruct (writeError "subscriptionGroup" [id] w1); [reflexivity|].
    destruct (writeError "segment" _ _); reflexivity.
  - intros workspaceId2 w2. subst w2. clear Hsecond.
    rewrite upsertSubscriptionGroup_eq.
    destruct (emailChannelOf (store w1) workspaceId2) as [c2|]; simpl;
      [|split; [exists []; now rewrite app_nil_r | now left]].
    destruct (writeError "subscriptionGroup" [id] w1); simpl;
      [split; [exists []; now rewrite app_nil_r | now left]|].
    destruct (writeError "segment" _ _); simpl;
      [split; [exists []; now rewrite app_nil_r | now left]|].
    unfold committed. cbv zeta. rewrite Hgroup.
    destruct (find (isSegmentNamed workspaceId2 _) (segment (store w1)));
      simpl.
    + split; [exists []; now rewrite app_nil_r | now right].
    + split; [eexists; reflexivity | now right].
Qed.



Lemma find_elem_of {A} (p : A -> bool) rows r :
  find p rows = Some r -> r ∈ rows /\ p r = true.
Proof.
  intros H. apply find_some in H as [Hin Hp]. split; [|exact Hp].
  now apply list_elem_of_In.
Qed.





(** [$transaction]: the body's writes are kept when it returns and
    dropped when it throws. *)
Lemma transaction_all_or_nothing {A} (body : Prisma A) w :
  (exists a w', body w = (Normal a, w')
                /\ transaction body w = (Normal a, w'))
  \/ (exists e, transaction body w = (Throw e, w)).
Proof.
  unfold transaction. destruct (body w) as [[a|e] w']; eauto.
Qed.






(* ---------------------------------------------------------------- *)
(** *** getUserSubscriptions *)

Lemma ascii_compare_le_trans a b c :
  Ascii.compare a b <> Gt -> Ascii.compare b c <> Gt ->
  Ascii.compare a c <> Gt
  /\ (Ascii.compare a c = Eq ->
      Ascii.compare a b = Eq /\ Ascii.compare b c = Eq).
Proof.
  unfold Ascii.compare. rewrite !N.compare_gt_iff, !N.compare_eq_iff. lia.
Qed.

Lemma string_leb_trans a b c :
  String.leb a b = true -> String.leb b c = true -> String.leb a c = true.
Proof.
  unfold String.leb. revert b c.
  induction a as [|x a IH]; intros [|y b] [|z c]; simpl; try easy.
  intros Hab Hbc.
  assert (Hxy : Ascii.compare x y <> Gt)
    by (destruct (Ascii.compare x y); [easy | easy | discriminate]).
  assert (Hyz : Ascii.compare y z <> Gt)
    by (destruct (Ascii.compare y z); [easy | easy | discriminate]).
  destruct (ascii_compare_le_trans x y z Hxy Hyz) as [Hxz Heq].
  destruct (Ascii.compare x z) eqn:E; [|reflexivity|contradiction].
  destruct (Heq eq_refl) as [E1 E2]. rewrite E1 in Hab. rewrite E2 in Hbc.
  now apply IH with b.
Qed.

#[local] Instance nameLe_total {A} (name : A -> string) : Total (nameLe name).
Proof. intros x y. apply String.leb_total. Qed.

#[local] Instance nameLe_trans {A} (name : A -> string)
  : Transitive (nameLe name).
Proof. intros x y z. apply string_leb_trans. Qed.

Lemma StronglySorted_filter {A} (R : relation A) (P : A -> Prop)
    `{forall x, Decision (P x)} (l : list A) :
  StronglySorted R l -> StronglySorted R (filter P l).
Proof.
  induction 1 as [|x l Hl IH Hx]; [constructor|].
  destruct (decide (P x)) as [Hp|Hp].
  - rewrite filter_cons_True by exact Hp. constructor; [exact IH|].
    apply Forall_forall. intros y [_ Hy]%list_elem_of_filter.
    rewrite Forall_forall in Hx. now apply Hx.
  - now rewrite filter_cons_False by exact Hp.
Qed.

(** The loop pushes, in order, an entry for each row that has a segment,
    and logs a line for each row that has none; it writes nothing. *)
Lemma collectSubscriptions_eq rows subscriptions w :
  exists lines,
    collectSubscriptions rows subscriptions w
    = (Normal (subscriptions ++ omap pushedSubscription rows), logged lines w).
Proof.
  revert subscriptions w.
  induction rows as [|[g segments] rest IH]; intros subscriptions w.
  - exists []. simpl. unfold mret, Prisma_ret, logged.
    rewrite !app_nil_r. now destruct w.
  - simpl collectSubscriptions. unfold pushedSubscription at 1.
    simpl. destruct (head segments) as [[s assignments]|].
    + destruct (IH (subscriptions ++
        [{| usr_id := SubscriptionGroup.id g;
            usr_name := SubscriptionGroup.name g;
            isSubscribed := match head assignments with
                            | Some a => SegmentAssignment.inSegment a
                            | None => false
                            end |}]) w) as [lines ->].
      exists lines. now rewrite <- app_assoc.
    + destruct (IH subscriptions
                  (logged ["No segment found for subscription group"] w))
        as [lines Hrest].
      exists ("No segment found for subscription group" :: lines).
      transitivity
        (collectSubscriptions rest subscriptions
           (logged ["No segment found for subscription group"] w));
        [reflexivity|].
      rewrite Hrest. unfold logged. simpl. now rewrite <- app_assoc.
Qed.

(** When the rows of the user and the segment agree, the first of them
    says what any of them says. *)
Lemma head_assignment_subscribedIn st userId s :
  assignmentsAgree st userId ->
  match head (assignmentsOfSegment st userId s) with
  | Some a => SegmentAssignment.inSegment a
  | None => false
  end = subscribedIn st userId s.
Proof.
  unfold assignmentsOfSegment, subscribedIn, assignmentsAgree.
  induction (segmentAssignment st) as [|a rest IH]; [reflexivity|].
  intros Hagree. simpl existsb.
  assert (Hrest : forall x y, x ∈ rest -> y ∈ rest ->
            SegmentAssignment.userId x = userId ->
            SegmentAssignment.userId y = userId ->
            SegmentAssignment.segmentId x = SegmentAssignment.segmentId y ->
            SegmentAssignment.inSegment x = SegmentAssignment.inSegment y)
    by (intros x y Hx Hy; apply Hagree; now apply list_elem_of_further).
  destruct (decide (SegmentAssignment.segmentId a = Segment.id s
                    /\ SegmentAssignment.userId a = userId)) as [Hp|Hp].
  - rewrite filter_cons_True by exact Hp. simpl.
    rewrite bool_decide_eq_true_2 by exact Hp. simpl.
    destruct (SegmentAssignment.inSegment a) eqn:Ha; [reflexivity|].
    simpl. symmetry. apply not_true_is_false. intros Hsome.
    apply existsb_exists in Hsome as (b & Hin & Hb).
    apply andb_true_iff in Hb as [Hkey Htrue].
    apply bool_decide_eq_true_1 in Hkey as [Hsid Huid].
    destruct Hp as [Hsid' Huid'].
    assert (Heq : SegmentAssignment.inSegment a
                  = SegmentAssignment.inSegment b).
    { apply Hagree; [apply list_elem_of_here | | exact Huid' | exact Huid
                    | congruence].
      apply list_elem_of_further. now apply list_elem_of_In. }
    congruence.
  - rewrite filter_cons_False by exact Hp.
    rewrite bool_decide_eq_false_2 by exact Hp. simpl. now apply IH.
Qed.

(** [subscribedIn] says that some row of the user and the segment has
    [inSegment] true. *)
Lemma subscribedIn_true_iff st userId s :
  subscribedIn st userId s = true
  <-> exists a,
        a ∈ segmentAssignment st
        /\ SegmentAssignment.segmentId a = Segment.id s
        /\ SegmentAssignment.userId a = userId
        /\ SegmentAssignment.inSegment a = true.
Proof.
  unfold subscribedIn. rewrite existsb_exists. split.
  - intros (a & Hin & Ha). apply andb_true_iff in Ha as [Hkey Htrue].
    apply bool_decide_eq_true_1 in Hkey as [Hsid Huid].
    exists a. repeat split; try assumption. now apply list_elem_of_In.
  - intros (a & Hin & Hsid & Huid & Htrue). exists a.
    split; [now apply list_elem_of_In|].
    apply andb_true_iff. split; [|exact Htrue].
    apply bool_decide_eq_true_2. now split.
Qed.

(** The first segment that the query joins to a group is the first segment
    row that names the group. *)
Lemma head_segmentsOfGroup st g :
  head (segmentsOfGroup st g) = pairedSegmentOf st g.
Proof.
  unfold segmentsOfGroup, pairedSegmentOf.
  induction (segment st) as [|s rest IH]; [reflexivity|].
  simpl find.
  destruct (decide (Segment.subscriptionGroupId s
                    = Some (SubscriptionGroup.id g))) as [Hp|Hp].
  - rewrite filter_cons_True by exact Hp.
    now rewrite bool_decide_eq_true_2 by exact Hp.
  - rewrite filter_cons_False by exact Hp.
    now rewrite bool_decide_eq_false_2 by exact Hp.
Qed.

Lemma omap_pushedSubscription st userId groups :
  assignmentsAgree st userId ->
  omap pushedSubscription
    (map (fun g => (g, map (fun s => (s, assignmentsOfSegment st userId s))
                         (segmentsOfGroup st g))) groups)
  = omap (listedEntry st userId) groups.
Proof.
  intros Hagree. induction groups as [|g rest IH]; [reflexivity|].
  rewrite map_cons. cbn [omap list_omap]. rewrite IH.
  unfold pushedSubscription, listedEntry. cbn [fst snd].
  rewrite <- head_segmentsOfGroup.
  destruct (segmentsOfGroup st g) as [|s others]; [reflexivity|].
  cbn [map head].
  now rewrite head_assignment_subscribedIn by exact Hagree.
Qed.

Lemma StronglySorted_omap {A B} (R : relation A) (R' : relation B)
    (f : A -> option B) (l : list A) :
  (forall x y x' y', f x = Some x' -> f y = Some y' -> R x y -> R' x' y') ->
  StronglySorted R l -> StronglySorted R' (omap f l).
Proof.
  intros Hf. induction 1 as [|x l Hl IH Hx]; [constructor|].
  cbn [omap list_omap]. destruct (f x) as [x'|] eqn:Hfx; [|exact IH].
  constructor; [exact IH|].
  apply Forall_forall. intros y' (y & Hy & Hfy)%list_elem_of_omap.
  rewrite Forall_forall in Hx. eapply Hf; eauto.
Qed.

Lemma listedEntry_name st userId g entry :
  listedEntry st userId g = Some entry ->
  usr_id entry = SubscriptionGroup.id g
  /\ usr_name entry = SubscriptionGroup.name g.
Proof.
  unfold listedEntry. destruct (pairedSegmentOf st g); [|discriminate].
  intros [= <-]. now split.
Qed.

(** C7. Listing: getUserSubscriptions returns, in ascending order of their
    names, one entry of id, name and isSubscribed for each subscription
    group of the workspace with which a segment is paired, and none for a
    group without one; isSubscribed is true exactly when an assignment row
    of that user and segment has inSegment true, and false when there is
    no row or the row has inSegment false.  The listing is read off the
    group, segment and assignment tables themselves; the rows of a user
    and a segment (at most one, by the key of the table) are taken to
    agree.  The store is left as it was. *)
Theorem getUserSubscriptions_lists workspaceId userId w :
  assignmentsAgree (store w) userId ->
  exists subscriptions w',
    getUserSubscriptions workspaceId userId w = (Normal subscriptions, w')
    /\ store w' = store w
    /\ StronglySorted (nameLe usr_name) subscriptions
    /\ subscriptions ≡ₚ listing (store w) workspaceId userId
    /\ (forall g s,
          g ∈ subscriptionGroup (store w) ->
          SubscriptionGroup.workspaceId g = workspaceId ->
          pairedSegmentOf (store w) g = Some s ->
          exists entry,
            entry ∈ subscriptions
            /\ usr_id entry = SubscriptionGroup.id g
            /\ usr_name entry = SubscriptionGroup.name g
            /\ (isSubscribed entry = true
                <-> exists a,
                      a ∈ segmentAssignment (store w)
                      /\ SegmentAssignment.segmentId a = Segment.id s
                      /\ SegmentAssignment.userId a = userId
                      /\ SegmentAssignment.inSegment a = true))
    /\ (forall entry,
          entry ∈ subscriptions ->
          exists g s,
            g ∈ subscriptionGroup (store w)
            /\ SubscriptionGroup.workspaceId g = workspaceId
            /\ pairedSegmentOf (store w) g = Some s
            /\ usr_id entry = SubscriptionGroup.id g
            /\ usr_name entry = SubscriptionGroup.name g).
Proof.
  intros Hagree.
  unfold getUserSubscriptions, subscriptionGroup_findMany_withSegments. run.
  match goal with
  | |- context [collectSubscriptions ?rows [] w] =>
      destruct (collectSubscriptions_eq rows [] w) as [lines ->]
  end.
  eexists _, _. split; [reflexivity|]. split; [reflexivity|].
  rewrite app_nil_l, omap_pushedSubscription by exact Hagree.
  assert (Hperm :
    omap (listedEntry (store w) userId)
      (orderByNameAsc SubscriptionGroup.name
         (filter (fun g => SubscriptionGroup.workspaceId g = workspaceId)
            (subscriptionGroup (store w))))
    ≡ₚ listing (store w) workspaceId userId).
  { unfold listing, orderByNameAsc. now rewrite merge_sort_Permutation. }
  split; [|split; [exact Hperm|split]].
  - apply (StronglySorted_omap (nameLe SubscriptionGroup.name)).
    + intros x y x' y' [_ Hx]%listedEntry_name [_ Hy]%listedEntry_name.
      unfold nameLe. now rewrite Hx, Hy.
    + unfold orderByNameAsc. apply StronglySorted_merge_sort; apply _.
  - intros g s Hg Hws Hpaired.
    exists {| usr_id := SubscriptionGroup.id g;
              usr_name := SubscriptionGroup.name g;
              isSubscribed := subscribedIn (store w) userId s |}.
    split; [|split; [reflexivity|split; [reflexivity|]]].
    + rewrite Hperm. unfold listing. apply list_elem_of_omap.
      exists g. split; [now apply list_elem_of_filter|].
      unfold listedEntry. now rewrite Hpaired.
    + cbn [isSubscribed]. apply subscribedIn_true_iff.
  - intros entry Hentry. rewrite Hperm in Hentry.
    apply list_elem_of_omap in Hentry as (g & Hg & Hlisted).
    apply list_elem_of_filter in Hg as [Hws Hg].
    unfold listedEntry in Hlisted.
    destruct (pairedSegmentOf (store w) g) as [s|] eqn:Hpaired;
      [|discriminate Hlisted].
    injection Hlisted as <-. exists g, s. now repeat split.
Qed.


(* ---------------------------------------------------------------- *)
(** *** updateUserSubscriptions *)

Lemma Prisma_bind_eq {A B} (m : Prisma A) (f : A -> Prisma B) w :
  (m ≫= f) w
  = match m w with
    | (Normal a, w') => f a w'
    | (Throw e, w') => (Throw e, w')
    end.
Proof. reflexivity. Qed.

Lemma sequence_cons {A} (op : Prisma A) rest w :
  sequence (op :: rest) w
  = match op w with
    | (Normal a, w') =>
        match sequence rest w' with
        | (Normal r, w'') => (Normal (a :: r), w'')
        | (Throw e, w'') => (Throw e, w'')
        end
    | (Throw e, w') => (Throw e, w')
    end.
Proof.
  cbn [sequence]. unfold mbind, Prisma_bind, mret, Prisma_ret.
  destruct (op w) as [[a|e] w']; [|reflexivity].
  destruct (sequence rest w') as [[r|e] w'']; reflexivity.
Qed.

(** An event built with the defaults draws a uuid and reads the clock. *)
Lemma buildSubscriptionChangeEvent_default userId action subscriptionGroupId w :
  buildSubscriptionChangeEvent None userId action subscriptionGroupId None w
  = (Normal
       {| messageId := uuid (uuidsDrawn w);
          messageRaw :=
            JSON.stringify
              (buildSubscriptionChangeEventInner (uuid (uuidsDrawn w)) userId
                 action subscriptionGroupId (toISOString (clockReads w))) |},
     {| store := store w; errorLog := errorLog w;
        uuidsDrawn := S (uuidsDrawn w); clockReads := S (clockReads w) |}).
Proof. reflexivity. Qed.

(** The first [flatMap]: one event for each pair, whatever the segments. *)
Lemma sequence_buildSubscriptionChangeEvent userId changes w :
  sequence
    (map (fun pair : string * bool =>
            buildSubscriptionChangeEvent None userId
              (if snd pair then Subscribe else UnSubscribe) (fst pair) None)
       changes) w
  = (Normal (auditEvents userId (uuidsDrawn w) (clockReads w) changes),
     {| store := store w; errorLog := errorLog w;
        uuidsDrawn := uuidsDrawn w + length changes;
        clockReads := clockReads w + length changes |}).
Proof.
  revert w. induction changes as [|entry rest IH]; intros w.
  - simpl. unfold mret, Prisma_ret. rewrite !Nat.add_0_r. now destruct w.
  - rewrite map_cons, sequence_cons.
    rewrite buildSubscriptionChangeEvent_default, IH. cbn.
    do 2 f_equal; lia.
Qed.

(** The second [flatMap]: an upsert for each pair at whose group id the
    record reads as something, and a logged line for each of the
    others. *)
Lemma segmentAssignmentUpdatesOf_eq
    (index : gmap string Segment.t) workspaceId userId
    (changes : list (string * bool)) w :
  segmentAssignmentUpdatesOf index workspaceId userId changes w
  = (Normal
       (map (fun request : option string * bool =>
               segmentAssignment_upsert workspaceId userId (fst request)
                 (snd request))
          (omap (fun pair : string * bool =>
                   (fun v => (RecordValue_id v, snd pair))
                     <$> recordGet index (fst pair)) changes)),
     logged
       (replicate
          (length (filter (fun pair : string * bool =>
                             recordGet index (fst pair) = None) changes))
          "Segment not found for subscription group id") w).
Proof.
  revert w. induction changes as [|[g d] rest IH]; intros w.
  - cbn. unfold mret, Prisma_ret, logged.
    rewrite app_nil_r. now destruct w.
  - cbn [segmentAssignmentUpdatesOf omap list_omap fst snd].
    destruct (recordGet index g) as [v|] eqn:Hg;
      cbn [fmap option_fmap option_map].
    + rewrite filter_cons_False by (cbn [fst]; rewrite Hg; discriminate).
      unfold mbind, Prisma_bind. now rewrite IH.
    + rewrite filter_cons_True by exact Hg.
      transitivity
        (segmentAssignmentUpdatesOf index workspaceId userId rest
           (logged ["Segment not found for subscription group id"] w));
        [reflexivity|].
      rewrite IH. unfold logged. simpl. now rewrite <- app_assoc.
Qed.

(** One requested upsert: refused by the client without a segment id,
    failed by the database, or carried out. *)
Lemma segmentAssignment_upsert_eq workspaceId userId segmentId inSegment w :
  exists row,
    segmentAssignment_upsert workspaceId userId segmentId inSegment w
    = match segmentId with
      | None => (Throw missingSegmentId, w)
      | Some sid =>
          match writeError "segmentAssignment" [workspaceId; userId; sid]
                  w with
          | Some e => (Throw e, w)
          | None =>
              (Normal row,
               withStore
                 (setSegmentAssignment
                    (writeAssignment workspaceId userId
                       (segmentAssignment (store w)) (sid, inSegment))) w)
          end
      end.
Proof.
  unfold segmentAssignment_upsert, writeAssignment, write.
  destruct segmentId as [sid|].
  - destruct (writeError _ _ w) as [e|].
    + exists {| SegmentAssignment.workspaceId := workspaceId;
                SegmentAssignment.userId := userId;
                SegmentAssignment.segmentId := sid;
                SegmentAssignment.inSegment := inSegment |}.
      reflexivity.
    + run. destruct (find _ (segmentAssignment (store w)));
        eexists; reflexivity.
  - exists {| SegmentAssignment.workspaceId := workspaceId;
              SegmentAssignment.userId := userId;
              SegmentAssignment.segmentId := "";
              SegmentAssignment.inSegment := inSegment |}.
    reflexivity.
Qed.

Lemma void_eq {A} (op : Prisma A) w :
  void op w = (outcomeOf (fst (op w)), snd (op w)).
Proof.
  unfold void, mbind, Prisma_bind, mret, Prisma_ret.
  now destruct (op w) as [[a|e] w'].
Qed.

Lemma promiseAll_cons {A} (op : Prisma A) rest w :
  snd (promiseAll (op :: rest) w) = snd (promiseAll rest (snd (op w)))
  /\ outcomeOf (fst (promiseAll (op :: rest) w))
     = match fst (op w) with
       | Normal _ => outcomeOf (fst (promiseAll rest (snd (op w))))
       | Throw e => Throw e
       end.
Proof.
  cbn [promiseAll]. destruct (op w) as [[a|e] w1]; cbn [fst snd].
  - now destruct (promiseAll rest w1) as [[r|e] w2].
  - split; reflexivity.
Qed.

Lemma withStore_setSegmentAssignment_same w :
  withStore (setSegmentAssignment (segmentAssignment (store w))) w = w.
Proof. now destruct w as [[] ? ? ?]. Qed.

Lemma withStore_setSegmentAssignment_twice rows rows' w :
  withStore (setSegmentAssignment rows')
    (withStore (setSegmentAssignment rows) w)
  = withStore (setSegmentAssignment rows') w.
Proof. now destruct w as [[] ? ? ?]. Qed.

(** [Promise.all] over the requested upserts and a last action: whatever
    the database fails, the world after is the world in which some of the
    writes that have a segment id were carried out, in order, and then the
    last action was run. *)
Lemma promiseAll_requests workspaceId userId
    (requests : list (option string * bool)) (final : Prisma unit) w :
  exists performed,
    sublist performed (omap validRequest requests)
    /\ snd (promiseAll
              (map void
                 (map (fun request : option string * bool =>
                         segmentAssignment_upsert workspaceId userId
                           (fst request) (snd request)) requests)
               ++ [final]) w)
       = snd (final
                (withStore
                   (setSegmentAssignment
                      (foldl (writeAssignment workspaceId userId)
                         (segmentAssignment (store w)) performed)) w)).
Proof.
  revert w. induction requests as [|[segmentId d] rest IH]; intros w.
  - exists []. split; [constructor|].
    cbn [map app foldl]. rewrite withStore_setSegmentAssignment_same.
    cbn [promiseAll]. destruct (final w) as [[a|e] w1]; reflexivity.
  - cbn [map app].
    destruct (promiseAll_cons
                (void (segmentAssignment_upsert workspaceId userId
                         (fst (segmentId, d)) (snd (segmentId, d))))
                (map void
                   (map (fun request : option string * bool =>
                           segmentAssignment_upsert workspaceId userId
                             (fst request) (snd request)) rest)
                 ++ [final]) w) as [-> _].
    rewrite void_eq. cbn [fst snd].
    destruct (segmentAssignment_upsert_eq workspaceId userId segmentId d w)
      as [row ->].
    destruct segmentId as [sid|]; cbn [omap list_omap validRequest fst snd
                                       fmap option_fmap option_map].
    + destruct (writeError _ _ w) as [e|]; cbn [snd].
      * destruct (IH w) as (performed & Hsub & ->).
        exists performed. split; [now constructor | reflexivity].
      * destruct (IH (withStore
                        (setSegmentAssignment
                           (writeAssignment workspaceId userId
                              (segmentAssignment (store w)) (sid, d))) w))
          as (performed & Hsub & ->).
        exists ((sid, d) :: performed). split; [now constructor|].
        cbn [foldl]. rewrite withStore_setSegmentAssignment_twice.
        now destruct w as [[] ? ? ?].
    + cbn [snd]. destruct (IH w) as (performed & Hsub & ->).
      exists performed. split; [exact Hsub | reflexivity].
Qed.



(** What the index holds for a group id: nothing for the empty id, else
    the last of the indexed segments that belong to the group. *)
Lemma indexBySubscriptionGroupId_lookup segments groupId :
  indexBySubscriptionGroupId segments !! groupId
  = if Str.isEmpty groupId then None
    else last (filter (fun s => Segment.subscriptionGroupId s = Some groupId)
                 segments).
Proof.
  unfold indexBySubscriptionGroupId.
  set (step := fun (acc : gmap string Segment.t) (s : Segment.t) =>
                 if truthy (Segment.subscriptionGroupId s)
                 then match Segment.subscriptionGroupId s with
                      | Some g => <[g:=s]> acc
                      | None => acc
                      end
                 else acc).
  assert (Hstep : forall (m : gmap string Segment.t) s,
    step m s !! groupId
    = if decide (Segment.subscriptionGroupId s = Some groupId
                 /\ Str.isEmpty groupId = false)
      then Some s else m !! groupId).
  { intros m s. unfold step, truthy.
    destruct (Segment.subscriptionGroupId s) as [g|].
    - destruct (Str.isEmpty g) eqn:Hg; cbn [negb].
      + rewrite decide_False; [reflexivity|]. intros [[= ->] ?]. congruence.
      + destruct (decide (g = groupId)) as [->|Hne].
        * rewrite decide_True by now split. now rewrite lookup_insert_eq.
        * rewrite decide_False by (intros [[= ->] ?]; congruence).
          now rewrite lookup_insert_ne.
    - rewrite decide_False; [reflexivity|]. now intros [? ?]. }
  assert (Hfold : forall l (m : gmap string Segment.t),
    foldl step m l !! groupId
    = if Str.isEmpty groupId then m !! groupId
      else match last (filter (fun s => Segment.subscriptionGroupId s
                                        = Some groupId) l) with
           | Some s => Some s
           | None => m !! groupId
           end).
  { induction l as [|s l IH]; intros m.
    - simpl. now destruct (Str.isEmpty groupId).
    - cbn [foldl]. rewrite IH, Hstep.
      destruct (Str.isEmpty groupId) eqn:Hempty.
      + rewrite decide_False; [reflexivity|]. now intros [? ?].
      + destruct (decide (Segment.subscriptionGroupId s = Some groupId))
          as [Hs|Hs].
        * rewrite filter_cons_True by exact Hs. rewrite last_cons.
          rewrite decide_True by now split.
          now destruct (last _).
        * rewrite filter_cons_False by exact Hs.
          rewrite decide_False; [reflexivity|]. now intros [? ?]. }
  rewrite Hfold, lookup_empty.
  destruct (Str.isEmpty groupId); [reflexivity|].
  now destruct (last _).
Qed.

(** The segments the update loads and indexes give, for a group id among
    the changes, the segment it writes to. *)
Lemma index_of_loaded_segments st workspaceId groupIds groupId :
  groupId ∈ groupIds ->
  indexBySubscriptionGroupId
    (filter (fun s => Segment.workspaceId s = workspaceId
                      /\ groupIdIn groupIds (Segment.subscriptionGroupId s)
                         = true) (segment st)) !! groupId
  = writtenSegment st workspaceId groupId.
Proof.
  intros Hin. rewrite indexBySubscriptionGroupId_lookup.
  unfold writtenSegment, backingSegments.
  destruct (Str.isEmpty groupId); [reflexivity|].
  rewrite list_filter_filter. f_equal. apply list_filter_iff.
  intros s. split.
  - intros (Hg & Hws & _). now split.
  - intros (Hws & Hg). repeat split; try assumption.
    rewrite Hg. simpl. now apply bool_decide_eq_true_2.
Qed.


Lemma find_updateWhere_other {A} (p p' : A -> bool) (f : A -> A) rows :
  (forall x, p' (f x) = p' x) ->
  (forall x, p x = true -> p' x = false) ->
  find p' (updateWhere p f rows) = find p' rows.
Proof.
  intros Hf Hdisjoint. induction rows as [|x rest IH]; [reflexivity|].
  simpl. destruct (p x) eqn:Hx; simpl.
  - now rewrite Hf, (Hdisjoint x Hx).
  - now rewrite IH.
Qed.

Lemma find_app_other {A} (p : A -> bool) rows x :
  p x = false -> find p (rows ++ [x]) = find p rows.
Proof.
  intros Hx. induction rows as [|y rest IH]; simpl; [now rewrite Hx|].
  now destruct (p y).
Qed.












Lemma omap_ext_elem {A B} (f g : A -> option B) (l : list A) :
  (forall x, x ∈ l -> f x = g x) -> omap f l = omap g l.
Proof.
  induction l as [|x l IH]; intros Hext; [reflexivity|].
  cbn [omap list_omap]. rewrite (Hext x) by apply list_elem_of_here.
  rewrite IH; [reflexivity|].
  intros y Hy. apply Hext. now apply list_elem_of_further.
Qed.

Lemma filter_ext_elem {A} (P Q : A -> Prop)
    `{forall x, Decision (P x)} `{forall x, Decision (Q x)} (l : list A) :
  (forall x, x ∈ l -> P x <-> Q x) -> filter P l = filter Q l.
Proof.
  induction l as [|x l IH]; intros Hext; [reflexivity|].
  assert (Hrest : filter P l = filter Q l).
  { apply IH. intros y Hy. apply Hext. now apply list_elem_of_further. }
  pose proof (Hext x (list_elem_of_here x l)) as Hx.
  destruct (decide (P x)) as [Hp|Hp].
  - rewrite (filter_cons_True P) by exact Hp.
    rewrite (filter_cons_True Q) by now apply Hx.
    now f_equal.
  - rewrite (filter_cons_False P) by exact Hp.
    rewrite (filter_cons_False Q) by now rewrite <- Hx.
    exact Hrest.
Qed.

(** What the record of the loaded segments reads at the group id of a
    pair is what the pair's request is made from. *)
Lemma recordGet_loaded st workspaceId groupIds groupId desired :
  groupId ∈ groupIds ->
  (fun v => (RecordValue_id v, desired))
    <$> recordGet
          (indexBySubscriptionGroupId
             (filter (fun s => Segment.workspaceId s = workspaceId
                               /\ groupIdIn groupIds
                                    (Segment.subscriptionGroupId s) = true)
                (segment st))) groupId
  = assignmentRequest st workspaceId (groupId, desired).
Proof.
  intros Hin. unfold recordGet, assignmentRequest. cbn [fst snd].
  rewrite index_of_loaded_segments by exact Hin.
  destruct (writtenSegment st workspaceId groupId) as [s|]; [reflexivity|].
  now destruct (bool_decide (groupId ∈ objectPrototypeMembers)).
Qed.

Lemma assignmentWrites_requests st workspaceId changes :
  omap validRequest (omap (assignmentRequest st workspaceId) changes)
  = assignmentWrites st workspaceId changes.
Proof.
  unfold assignmentWrites.
  induction changes as [|[g d] rest IH]; [reflexivity|].
  cbn [omap list_omap]. unfold assignmentRequest at 1. cbn [fst snd].
  destruct (writtenSegment st workspaceId g) as [s|];
    cbn [fmap option_fmap option_map omap list_omap validRequest fst snd].
  - now rewrite IH.
  - destruct (bool_decide (g ∈ objectPrototypeMembers));
      cbn [omap list_omap validRequest fst snd fmap option_fmap option_map];
      exact IH.
Qed.

Lemma requests_valid st workspaceId changes :
  forallb (fun request : option string * bool =>
             bool_decide (is_Some (fst request)))
    (omap (assignmentRequest st workspaceId) changes)
  = match invalidChanges st workspaceId changes with
    | [] => true
    | _ :: _ => false
    end.
Proof.
  unfold invalidChanges.
  induction changes as [|[g d] rest IH]; [reflexivity|].
  cbn [omap list_omap]. unfold assignmentRequest at 1. cbn [fst snd].
  destruct (writtenSegment st workspaceId g) as [s|] eqn:Hs.
  - rewrite filter_cons_False
      by (cbn [fst]; rewrite Hs; intros [Hnone _]; discriminate).
    cbn [forallb fst]. rewrite bool_decide_eq_true_2 by eauto. exact IH.
  - destruct (decide (g ∈ objectPrototypeMembers)) as [Hin|Hout].
    + rewrite bool_decide_eq_true_2 by exact Hin.
      rewrite filter_cons_True by now split.
      cbn [forallb fst].
      now rewrite bool_decide_eq_false_2 by (intros [x Hx]; discriminate).
    + rewrite bool_decide_eq_false_2 by exact Hout.
      rewrite filter_cons_False by (cbn [fst]; now intros [_ Hin]).
      exact IH.
Qed.

(** The steps of an update up to its [Promise.all]: the events are built,
    with their uuids and readings of the clock, the lines are logged, and
    the requested upserts and the append of the events are issued. *)
Lemma updateUserSubscriptions_steps workspaceId userId changes w :
  let ops :=
    map void
      (map (fun request : option string * bool =>
              segmentAssignment_upsert workspaceId userId (fst request)
                (snd request))
         (omap (assignmentRequest (store w) workspaceId) changes))
    ++ [write "userEvent" [workspaceId]
          (insertUserEvents workspaceId
             (auditEvents userId (uuidsDrawn w) (clockReads w) changes))] in
  let w2 :=
    {| store := store w;
       errorLog :=
         errorLog w
         ++ replicate (length (loggedChanges (store w) workspaceId changes))
              "Segment not found for subscription group id";
       uuidsDrawn := uuidsDrawn w + length changes;
       clockReads := clockReads w + length changes |} in
  updateUserSubscriptions workspaceId userId changes w
  = (outcomeOf (fst (promiseAll ops w2)), snd (promiseAll ops w2)).
Proof.
  intros ops w2. subst ops w2.
  unfold updateUserSubscriptions, segment_findMany_ofGroups.
  rewrite Prisma_bind_eq. unfold getStore at 1.
  rewrite Prisma_bind_eq. unfold mret at 1, Prisma_ret at 1.
  rewrite Prisma_bind_eq, sequence_buildSubscriptionChangeEvent.
  rewrite Prisma_bind_eq, segmentAssignmentUpdatesOf_eq.
  rewrite Prisma_bind_eq. unfold logged.
  cbn [store errorLog uuidsDrawn clockReads].
  rewrite (omap_ext_elem _ (assignmentRequest (store w) workspaceId)).
  2:{ intros [g d] Hin. cbn [fst snd]. apply recordGet_loaded.
      apply list_elem_of_fmap. now exists (g, d). }
  unfold loggedChanges.
  rewrite (filter_ext_elem _
             (fun pair : string * bool =>
                assignmentRequest (store w) workspaceId pair = None)).
  2:{ intros [g d] Hin. cbn [fst].
      rewrite <- (recordGet_loaded (store w) workspaceId
                    (map fst changes) g d)
        by (apply list_elem_of_fmap; now exists (g, d)).
      now destruct (recordGet _ g). }
  match goal with
  | |- context [promiseAll ?ops ?w2] =>
      destruct (promiseAll ops w2) as [[r|e] w3]
  end; reflexivity.
Qed.

(** The world an update leaves, whatever the database fails: some of the
    assignment writes, in order; the events of the pairs, or none of
    them; a line for each skipped pair; a uuid and a reading of the clock
    for each pair. *)
Lemma updateUserSubscriptions_settled workspaceId userId changes w :
  exists performed appended,
    sublist performed (assignmentWrites (store w) workspaceId changes)
    /\ (appended = []
        \/ appended
           = map (fun e => (workspaceId, e))
               (auditEvents userId (uuidsDrawn w) (clockReads w) changes))
    /\ snd (updateUserSubscriptions workspaceId userId changes w)
       = {| store :=
              setUserEvents (userEvents (store w) ++ appended)
                (setSegmentAssignment
                   (foldl (writeAssignment workspaceId userId)
                      (segmentAssignment (store w)) performed)
                   (store w));
            errorLog :=
              errorLog w
              ++ replicate
                   (length (loggedChanges (store w) workspaceId changes))
                   "Segment not found for subscription group id";
            uuidsDrawn := uuidsDrawn w + length changes;
            clockReads := clockReads w + length changes |}.
Proof.
  rewrite updateUserSubscriptions_steps. cbn [snd].
  match goal with
  | |- context [promiseAll (_ ++ [?final]) ?w2] =>
      destruct (promiseAll_requests workspaceId userId
                  (omap (assignmentRequest (store w) workspaceId) changes)
                  final w2) as (performed & Hsub & ->)
  end.
  rewrite assignmentWrites_requests in Hsub.
  exists performed. unfold write, insertUserEvents, modifyStore.
  cbn [store errorLog uuidsDrawn clockReads].
  destruct (writeError "userEvent" [workspaceId] _) as [e|]; cbn [snd].
  - exists []. split; [exact Hsub|]. split; [now left|].
    rewrite app_nil_r. unfold withStore. cbn [store errorLog uuidsDrawn
                                              clockReads].
    now destruct (store w).
  - eexists. split; [exact Hsub|]. split; [now right|].
    unfold withStore. cbn [store errorLog uuidsDrawn clockReads].
    now destruct (store w).
Qed.




(* ---------------------------------------------------------------- *)
(** *** Further properties of lookupUserForSubscriptions *)

(** X1. An accepted lookup is sound: when lookupUserForSubscriptions
    returns ok with a user id, the world is unchanged, that user is the one
    of the first assignment of the identifier, the workspace has a
    subscription secret, and the hash handed in is exactly the hash of the
    workspace, that user, the identifier key and the identifier under that
    secret. *)
Theorem lookupUserForSubscriptions_ok_sound
    workspaceId identifier identifierKey hash w userId w' :
  lookupUserForSubscriptions workspaceId identifier identifierKey hash w
  = (Normal (ok userId), w') ->
  w' = w
  /\ exists a subscriptionSecret,
       head (assignmentsOfIdentifier (store w) workspaceId identifierKey
               identifier) = Some a
       /\ UserPropertyAssignment.userId a = userId
       /\ subscriptionSecretOf (store w) workspaceId = Some subscriptionSecret
       /\ hash = generateSubscriptionHash workspaceId userId identifierKey
                   identifier subscriptionSecret.
Proof.
  rewrite lookupUserForSubscriptions_eq.
  destruct (head _) as [a|]; [|discriminate].
  destruct (subscriptionSecretOf _ _) as [secret|]; [|discriminate].
  destruct (String.eqb_spec
              (generateSubscriptionHash workspaceId
                 (UserPropertyAssignment.userId a) identifierKey identifier
                 secret) hash) as [Heq|_]; [|discriminate].
  intros [= <- <-]. split; [reflexivity|].
  exists a, secret. now repeat split.
Qed.

(** X2. The not-found error is decided by the identifier alone:
    lookupUserForSubscriptions returns the typed error "User not found"
    exactly when no assignment of the identifier exists under the
    workspace's user property, whatever the hash handed in and whether or
    not the workspace has a secret. *)
Theorem lookupUserForSubscriptions_not_found_iff
    workspaceId identifier identifierKey hash w :
  lookupUserForSubscriptions workspaceId identifier identifierKey hash w
  = (Normal (err "User not found"), w)
  <-> assignmentsOfIdentifier (store w) workspaceId identifierKey identifier
      = [].
Proof.
  rewrite lookupUserForSubscriptions_eq.
  destruct (assignmentsOfIdentifier _ _ _ _) as [|a rest]; simpl.
  - split; reflexivity.
  - split; [|discriminate].
    destruct (subscriptionSecretOf _ _) as [secret|]; [|discriminate].
    destruct (String.eqb _ hash); discriminate.
Qed.

(** X3. Users that share an identifier: the lookup resolves the identifier
    to the user of its first assignment, so the hash built for any other
    user, be it one the identifier is assigned to as well, never resolves
    to that user: it is answered with "Hash mismatch", or, where
    generateSecureHash gives the records of the two users the same digest,
    with the first user; the world is left as it was. *)
Theorem lookupUserForSubscriptions_other_user
    workspaceId identifier identifierKey subscriptionSecret a userId w :
  subscriptionSecretOf (store w) workspaceId = Some subscriptionSecret ->
  head (assignmentsOfIdentifier (store w) workspaceId identifierKey
          identifier) = Some a ->
  userId <> UserPropertyAssignment.userId a ->
  let hash := generateSubscriptionHash workspaceId userId identifierKey
                identifier subscriptionSecret in
  let answer := lookupUserForSubscriptions workspaceId identifier
                  identifierKey hash w in
  snd answer = w
  /\ fst answer <> Normal (ok userId)
  /\ (fst answer = Normal (err "Hash mismatch")
      \/ fst answer = Normal (ok (UserPropertyAssignment.userId a))
         /\ generateSubscriptionHash workspaceId
              (UserPropertyAssignment.userId a) identifierKey identifier
              subscriptionSecret = hash).
Proof.
  intros Hsecret Hfirst Hother hash answer. subst answer hash.
  rewrite lookupUserForSubscriptions_eq, Hfirst, Hsecret. cbn [fst snd].
  split; [reflexivity|].
  destruct (String.eqb_spec
              (generateSubscriptionHash workspaceId
                 (UserPropertyAssignment.userId a) identifierKey identifier
                 subscriptionSecret)
              (generateSubscriptionHash workspaceId userId identifierKey
                 identifier subscriptionSecret)) as [Heq|_].
  - split; [|now right]. intros [= Huser]. now apply Hother.
  - split; [discriminate | now left].
Qed.


(* ---------------------------------------------------------------- *)
(** *** Further properties of generateSubscriptionChangeUrl *)

Lemma allBytes_app p a b :
  allBytes p (a +:+ b) = allBytes p a && allBytes p b.
Proof.
  induction a as [|x a IH]; [reflexivity|].
  rewrite app_String. simpl. now rewrite IH, andb_assoc.
Qed.

Lemma serializeByte_query c :
  allBytes isQueryByte (URLSearchParams.serializeByte c) = true.
Proof. destruct c as [[] [] [] [] [] [] [] []]; reflexivity. Qed.

Lemma serializeBytes_query s :
  allBytes isQueryByte (URLSearchParams.serializeBytes s) = true.
Proof.
  induction s as [|c s IH]; [reflexivity|].
  simpl. now rewrite allBytes_app, serializeByte_query, IH.
Qed.

Lemma toString_query entries :
  allBytes isQueryByte (URLSearchParams.toString entries) = true.
Proof.
  unfold URLSearchParams.toString.
  assert (Hentry : forall e,
             allBytes isQueryByte (URLSearchParams.serializeEntry e) = true).
  { intros e. unfold URLSearchParams.serializeEntry.
    now rewrite !allBytes_app, !serializeBytes_query. }
  induction entries as [|e rest IH]; [reflexivity|].
  destruct rest as [|e' rest']; [apply Hentry|].
  change (Str.join "&" (map URLSearchParams.serializeEntry (e :: e' :: rest')))
    with (URLSearchParams.serializeEntry e +:+ "&"
          +:+ Str.join "&" (map URLSearchParams.serializeEntry (e' :: rest'))).
  now rewrite !allBytes_app, Hentry, IH.
Qed.

(** X4. The query of a built link is made of unreserved text only: after
    the fixed route and the question mark every byte is an ASCII letter or
    digit, one of [*], [-], [.], [_], a [+], a [%] or one of the separators
    [&] and [=], whatever bytes the workspace id, the identifier, the
    identifier key, the hash or the target group id contain. *)
Theorem generated_url_query_bytes
    workspaceId subscriptionSecret userId identifier identifierKey
    changedSubscription subscriptionChange :
  exists queryString,
    generateSubscriptionChangeUrl workspaceId subscriptionSecret userId
      identifier identifierKey changedSubscription subscriptionChange
    = "/dashboard" +:+ SUBSCRIPTION_MANAGEMENT_PAGE +:+ "?" +:+ queryString
    /\ allBytes isQueryByte queryString = true.
Proof.
  eexists. split; [reflexivity|]. apply toString_query.
Qed.

(** X5. A link tells its inputs: two calls of generateSubscriptionChangeUrl
    that return the same link were given the same workspace id, identifier
    and identifier key, computed the same hash, and agree on the text of
    [s] (the target group id, or "undefined" without one) and of [sub]. *)
Theorem generated_url_injective
    workspaceId subscriptionSecret userId identifier identifierKey
    changedSubscription subscriptionChange
    workspaceId' subscriptionSecret' userId' identifier' identifierKey'
    changedSubscription' subscriptionChange' :
  generateSubscriptionChangeUrl workspaceId subscriptionSecret userId
    identifier identifierKey changedSubscription subscriptionChange
  = generateSubscriptionChangeUrl workspaceId' subscriptionSecret' userId'
      identifier' identifierKey' changedSubscription' subscriptionChange' ->
  workspaceId = workspaceId'
  /\ identifier = identifier'
  /\ identifierKey = identifierKey'
  /\ generateSubscriptionHash workspaceId userId identifierKey identifier
       subscriptionSecret
     = generateSubscriptionHash workspaceId' userId' identifierKey'
         identifier' subscriptionSecret'
  /\ default "undefined" changedSubscription
     = default "undefined" changedSubscription'
  /\ subFlag subscriptionChange = subFlag subscriptionChange'.
Proof.
  intros Heq. apply (f_equal searchParamsOf) in Heq.
  rewrite !searchParamsOf_generateSubscriptionChangeUrl in Heq.
  unfold URLSearchParams_ofRecord, subscriptionParams in Heq.
  rewrite !map_cons in Heq. cbn [fst snd map] in Heq.
  injection Heq as Hw Hi Hik Hh Hs Hsub.
  change (default "undefined" (Some ?x)) with x in *.
  subst. now repeat split.
Qed.

(** X6. Every built link carries the six parameters [w], [i], [ik], [h],
    [s], [sub] in this order, also when no target group is given: [s] then
    reads "undefined", and the link is, byte for byte, the link built for a
    target group whose id is "undefined". *)
Theorem generated_url_target_text
    workspaceId subscriptionSecret userId identifier identifierKey
    changedSubscription subscriptionChange :
  let url := generateSubscriptionChangeUrl workspaceId subscriptionSecret
               userId identifier identifierKey changedSubscription
               subscriptionChange in
  url = generateSubscriptionChangeUrl workspaceId subscriptionSecret userId
          identifier identifierKey
          (Some (default "undefined" changedSubscription)) subscriptionChange
  /\ exists params,
       searchParamsOf url = Some params
       /\ URLSearchParams.keys params = ["w"; "i"; "ik"; "h"; "s"; "sub"]
       /\ URLSearchParams.get "s" params
          = Some (default "undefined" changedSubscription).
Proof.
  split; [now destruct changedSubscription|].
  eexists. split; [apply searchParamsOf_generateSubscriptionChangeUrl|].
  split; reflexivity.
Qed.


(* ---------------------------------------------------------------- *)
(** *** Further properties of upsertSubscriptionGroup *)

(** The world a call leaves, in one shape for all of its paths: the group
    table is rewritten in place, extended by one row or left alone; the
    segment table grows by at most one row, for which one uuid is drawn. *)
Lemma upsertSubscriptionGroup_world id name type workspaceId w :
  exists (groups' : list SubscriptionGroup.t) (created : list Segment.t),
    snd (upsertSubscriptionGroup id name type workspaceId w)
    = {| store := setSegment (segment (store w) ++ created)
                    (setSubscriptionGroup groups' (store w));
         errorLog := errorLog w;
         uuidsDrawn := uuidsDrawn w + length created;
         clockReads := clockReads w |}
    /\ (created = []
        \/ created = [createdSegment (uuid (uuidsDrawn w)) id workspaceId])
    /\ (groups' = subscriptionGroup (store w)
        \/ (exists g0, find (isGroup id) (subscriptionGroup (store w))
                       = Some g0
                       /\ groups' = updateWhere (isGroup id)
                                      (renameGroup name type)
                                      (subscriptionGroup (store w)))
        \/ (exists c, find (isGroup id) (subscriptionGroup (store w)) = None
                      /\ groups' = subscriptionGroup (store w)
                                   ++ [createdGroup id name type workspaceId
                                         c])).
Proof.
  assert (Hsame :
    exists (groups' : list SubscriptionGroup.t) (created : list Segment.t),
      w = {| store := setSegment (segment (store w) ++ created)
                        (setSubscriptionGroup groups' (store w));
             errorLog := errorLog w;
             uuidsDrawn := uuidsDrawn w + length created;
             clockReads := clockReads w |}
      /\ (created = []
          \/ created
             = [createdSegment (uuid (uuidsDrawn w)) id workspaceId])
      /\ (groups' = subscriptionGroup (store w)
          \/ (exists g0, find (isGroup id) (subscriptionGroup (store w))
                         = Some g0
                         /\ groups' = updateWhere (isGroup id)
                                        (renameGroup name type)
                                        (subscriptionGroup (store w)))
          \/ (exists c, find (isGroup id) (subscriptionGroup (store w))
                        = None
                        /\ groups' = subscriptionGroup (store w)
                                     ++ [createdGroup id name type
                                           workspaceId c]))).
  { exists (subscriptionGroup (store w)), [].
    split; [|split; [now left | now left]].
    destruct w as [[] log n t]. simpl. now rewrite app_nil_r, Nat.add_0_r. }
  rewrite upsertSubscriptionGroup_eq.
  destruct (emailChannelOf (store w) workspaceId) as [c|]; [|exact Hsame].
  destruct (writeError "subscriptionGroup" [id] w); [exact Hsame|].
  destruct (writeError "segment" _ _); [exact Hsame|].
  clear Hsame. unfold committed.
  - cbv zeta.
    assert (Hgroups :
      exists groups',
        snd match find (isGroup id) (subscriptionGroup (store w)) with
            | Some g =>
                (renameGroup name type g,
                 updateWhere (isGroup id) (renameGroup name type)
                   (subscriptionGroup (store w)))
            | None =>
                (createdGroup id name type workspaceId c,
                 subscriptionGroup (store w)
                 ++ [createdGroup id name type workspaceId c])
            end = groups'
        /\ ((exists g0, find (isGroup id) (subscriptionGroup (store w))
                        = Some g0
                        /\ groups' = updateWhere (isGroup id)
                                       (renameGroup name type)
                                       (subscriptionGroup (store w)))
            \/ (exists c, find (isGroup id) (subscriptionGroup (store w))
                          = None
                          /\ groups' = subscriptionGroup (store w)
                                       ++ [createdGroup id name type
                                             workspaceId c]))).
    { destruct (find (isGroup id) (subscriptionGroup (store w))) as [g0|];
        eexists; (split; [reflexivity|]); [left | right]; eauto. }
    destruct Hgroups as (groups' & -> & Hgroups).
    exists groups'.
    destruct (find (isSegmentNamed workspaceId (segmentNameOf id))
                (segment (store w))) as [s|].
    + exists []. split; [|split; [now left | now right]].
      destruct w as [[] log n t]. simpl.
      now rewrite app_nil_r, Nat.add_0_r.
    + exists [createdSegment (uuid (uuidsDrawn w)) id workspaceId].
      split; [|split; [now right | now right]].
      simpl. now rewrite Nat.add_1_r.
Qed.

Lemma isGroup_renameGroup id name type g :
  isGroup id (renameGroup name type g) = isGroup id g.
Proof. reflexivity. Qed.

Lemma isGroup_other id id' g :
  id' = id \/ (isGroup id g = true -> isGroup id' g = false).
Proof.
  destruct (String.eqb_spec id' id) as [Heq|Hne]; [now left | right].
  unfold isGroup. rewrite String.eqb_eq. intros <-.
  now apply String.eqb_neq.
Qed.

(** X7. The outcomes of upsertSubscriptionGroup. Without an email channel
    in the workspace it returns the typed error "Email channel not found"
    and leaves the world unchanged. With one, when the database fails a
    write of the transaction, the group write or, after it, the segment
    write, the call throws the database's error and leaves the world as it
    was. Otherwise it returns ok with a group that has the requested id,
    name and type; the workspace and the channel of that group are those
    of the row stored under the id, when there is one, and the requested
    workspace and its email channel otherwise. *)
Theorem upsertSubscriptionGroup_outcome id name type workspaceId w :
  match emailChannelOf (store w) workspaceId with
  | None =>
      upsertSubscriptionGroup id name type workspaceId w
      = (Normal (err "Email channel not found"), w)
  | Some emailChannel =>
      match writeError "subscriptionGroup" [id] w with
      | Some e =>
          upsertSubscriptionGroup id name type workspaceId w = (Throw e, w)
      | None =>
          match writeError "segment" [workspaceId; segmentNameOf id]
                  (groupWritten id name type workspaceId emailChannel w) with
          | Some e =>
              upsertSubscriptionGroup id name type workspaceId w
              = (Throw e, w)
          | None =>
              exists g w',
                upsertSubscriptionGroup id name type workspaceId w
                = (Normal (ok g), w')
                /\ SubscriptionGroup.id g = id
                /\ SubscriptionGroup.name g = name
                /\ SubscriptionGroup.type g = type
                /\ (SubscriptionGroup.workspaceId g,
                    SubscriptionGroup.channelId g)
                   = match find (isGroup id)
                             (subscriptionGroup (store w)) with
                     | Some g0 => (SubscriptionGroup.workspaceId g0,
                                   SubscriptionGroup.channelId g0)
                     | None => (workspaceId, Channel.id emailChannel)
                     end
          end
      end
  end.
Proof.
  rewrite upsertSubscriptionGroup_eq.
  destruct (emailChannelOf (store w) workspaceId) as [c|]; [|reflexivity].
  destruct (writeError "subscriptionGroup" [id] w); [reflexivity|].
  destruct (writeError "segment" _ _); [reflexivity|].
  unfold committed. cbv zeta.
  destruct (find (isGroup id) (subscriptionGroup (store w))) as [g0|] eqn:Hg;
    destruct (find (isSegmentNamed workspaceId (segmentNameOf id))
                (segment (store w))) as [s|];
    eexists _, _; (split; [reflexivity|]); simpl;
    repeat split;
    apply find_elem_of in Hg as [_ Hid]; now apply String.eqb_eq in Hid.
Qed.

(** X8. What upsertSubscriptionGroup leaves alone. Channels, segment
    assignments, secrets, user properties, their assignments, the events,
    the error log and the clock are untouched; every segment row stays and
    at most one is appended, for which one uuid is drawn; the rows found
    under other group ids are what they were; and a row stored under the
    id is still found, with its workspace and its channel unchanged. *)
Theorem upsertSubscriptionGroup_frame id name type workspaceId w :
  let w' := snd (upsertSubscriptionGroup id name type workspaceId w) in
  channel (store w') = channel (store w)
  /\ segmentAssignment (store w') = segmentAssignment (store w)
  /\ secret (store w') = secret (store w)
  /\ userProperty (store w') = userProperty (store w)
  /\ userPropertyAssignment (store w') = userPropertyAssignment (store w)
  /\ userEvents (store w') = userEvents (store w)
  /\ errorLog w' = errorLog w
  /\ clockReads w' = clockReads w
  /\ (exists created,
        segment (store w') = segment (store w) ++ created
        /\ length created <= 1
        /\ uuidsDrawn w' = uuidsDrawn w + length created)
  /\ (forall id',
        id' = id
        \/ find (isGroup id') (subscriptionGroup (store w'))
           = find (isGroup id') (subscriptionGroup (store w)))
  /\ match find (isGroup id) (subscriptionGroup (store w)) with
     | Some g0 =>
         exists g1,
           find (isGroup id) (subscriptionGroup (store w')) = Some g1
           /\ SubscriptionGroup.workspaceId g1
              = SubscriptionGroup.workspaceId g0
           /\ SubscriptionGroup.channelId g1 = SubscriptionGroup.channelId g0
     | None => True
     end.
Proof.
  intros w'. subst w'.
  destruct (upsertSubscriptionGroup_world id name type workspaceId w)
    as (groups' & created & -> & Hcreated & Hgroups).
  cbn [store errorLog uuidsDrawn clockReads].
  do 8 (split; [now destruct (store w)|]).
  split.
  { exists created. split; [now destruct (store w)|]. split; [|reflexivity].
    destruct Hcreated as [-> | ->]; simpl; lia. }
  assert (Hread : subscriptionGroup
                    (setSegment (segment (store w) ++ created)
                       (setSubscriptionGroup groups' (store w))) = groups')
    by now destruct (store w).
  rewrite Hread. split.
  - intros id'.
    destruct (String.eqb_spec id' id) as [Heq|Hne]; [now left | right].
    assert (Hother : forall g, isGroup id g = true -> isGroup id' g = false).
    { intros g. destruct (isGroup_other id id' g); [contradiction | assumption]. }
    destruct Hgroups as [-> | [(g0 & _ & ->) | (c & _ & ->)]];
      [reflexivity | |].
    + now apply find_updateWhere_other.
    + apply find_app_other. unfold isGroup, createdGroup. simpl.
      apply String.eqb_neq. congruence.
  - destruct (find (isGroup id) (subscriptionGroup (store w))) as [g0|] eqn:Hg;
      [|exact I].
    destruct Hgroups as [-> | [(g0' & _ & ->) | (c & Hnone & _)]].
    + now exists g0.
    + exists (renameGroup name type g0). split; [|now split].
      now apply find_updateWhere.
    + discriminate.
Qed.

Lemma map_id_updateWhere id name type groups :
  map SubscriptionGroup.id
    (updateWhere (isGroup id) (renameGroup name type) groups)
  = map SubscriptionGroup.id groups.
Proof.
  induction groups as [|g rest IH]; [reflexivity|].
  simpl. destruct (isGroup id g); simpl; now rewrite ?IH.
Qed.

Lemma find_isGroup_None id groups :
  find (isGroup id) groups = None -> id ∉ map SubscriptionGroup.id groups.
Proof.
  induction groups as [|g rest IH]; simpl; [intros _; apply not_elem_of_nil|].
  destruct (isGroup id g) eqn:Hg; [discriminate|].
  intros Hnone [Heq|Hin]%elem_of_cons; [|now apply IH].
  unfold isGroup in Hg. apply String.eqb_neq in Hg. congruence.
Qed.

(** X9. upsertSubscriptionGroup keeps the group ids unique: when no two
    rows of the group table share an id before the call, none do after
    it, on every path of the call. *)
Theorem upsertSubscriptionGroup_unique_ids id name type workspaceId w :
  NoDup (map SubscriptionGroup.id (subscriptionGroup (store w))) ->
  NoDup (map SubscriptionGroup.id
           (subscriptionGroup
              (store (snd (upsertSubscriptionGroup id name type workspaceId
                             w))))).
Proof.
  intros Hunique.
  destruct (upsertSubscriptionGroup_world id name type workspaceId w)
    as (groups' & created & -> & _ & Hgroups).
  cbn [store].
  replace (subscriptionGroup
             (setSegment (segment (store w) ++ created)
                (setSubscriptionGroup groups' (store w)))) with groups'
    by now destruct (store w).
  destruct Hgroups as [-> | [(g0 & _ & ->) | (c & Hnone & ->)]];
    [exact Hunique | now rewrite map_id_updateWhere |].
  rewrite map_app. apply NoDup_app. split; [exact Hunique|].
  split; [|apply NoDup_singleton].
  intros x Hin [->|[]%elem_of_nil]%elem_of_cons.
  now apply (find_isGroup_None _ _ Hnone).
Qed.


(* ---------------------------------------------------------------- *)
(** *** Further properties of getUserSubscriptions *)

(** The loop with its log lines counted: one line for each row that no
    segment is joined to. *)
Lemma collectSubscriptions_log rows subscriptions w :
  collectSubscriptions rows subscriptions w
  = (Normal (subscriptions ++ omap pushedSubscription rows),
     logged
       (replicate (length (filter (fun row => snd row = []) rows))
          "No segment found for subscription group") w).
Proof.
  revert subscriptions w.
  induction rows as [|[g segments] rest IH]; intros subscriptions w.
  - simpl. unfold mret, Prisma_ret, logged.
    rewrite !app_nil_r. now destruct w.
  - simpl collectSubscriptions. unfold pushedSubscription at 1.
    cbn [fst snd omap list_omap].
    destruct segments as [|[s assignments] others].
    + rewrite filter_cons_True by reflexivity. cbn [head].
      transitivity
        (collectSubscriptions rest subscriptions
           (logged ["No segment found for subscription group"] w));
        [reflexivity|].
      rewrite IH. unfold logged. simpl. now rewrite <- app_assoc.
    + rewrite filter_cons_False by discriminate. cbn [head].
      rewrite IH. now rewrite <- app_assoc.
Qed.

Lemma omap_pushedSubscription_first st userId groups :
  omap pushedSubscription
    (map (fun g => (g, map (fun s => (s, assignmentsOfSegment st userId s))
                         (segmentsOfGroup st g))) groups)
  = map (firstRowSubscription st userId)
      (filter (fun g => segmentsOfGroup st g <> []) groups).
Proof.
  induction groups as [|g rest IH]; [reflexivity|].
  rewrite map_cons. cbn [omap list_omap]. rewrite IH.
  unfold pushedSubscription. cbn [fst snd].
  destruct (segmentsOfGroup st g) as [|s others] eqn:Hsegs.
  - cbn [map head].
    now rewrite filter_cons_False by (intros Hsome; now apply Hsome).
  - cbn [map head].
    rewrite filter_cons_True by (rewrite Hsegs; discriminate).
    rewrite map_cons. f_equal.
    unfold firstRowSubscription. now rewrite Hsegs.
Qed.

Lemma rows_without_segment st userId groups :
  length (filter (fun row : SubscriptionGroup.t
                            * list (Segment.t * list SegmentAssignment.t) =>
                    snd row = [])
            (map (fun g => (g, map (fun s =>
                                      (s, assignmentsOfSegment st userId s))
                                 (segmentsOfGroup st g))) groups))
  = length (filter (fun g => segmentsOfGroup st g = []) groups).
Proof.
  induction groups as [|g rest IH]; [reflexivity|].
  rewrite map_cons.
  destruct (segmentsOfGroup st g) as [|s others] eqn:Hsegs.
  - rewrite !filter_cons_True by (try rewrite Hsegs; reflexivity).
    simpl. now rewrite IH.
  - rewrite !filter_cons_False by (try rewrite Hsegs; discriminate).
    exact IH.
Qed.

(** The call in one equation, whatever the assignment rows are. *)
Lemma getUserSubscriptions_eq workspaceId userId w :
  getUserSubscriptions workspaceId userId w
  = (Normal
       (map (firstRowSubscription (store w) userId)
          (filter (fun g => segmentsOfGroup (store w) g <> [])
             (orderByNameAsc SubscriptionGroup.name
                (filter (fun g => SubscriptionGroup.workspaceId g
                                  = workspaceId)
                   (subscriptionGroup (store w)))))),
     logged
       (replicate (length (groupsWithoutSegment (store w) workspaceId))
          "No segment found for subscription group") w).
Proof.
  unfold getUserSubscriptions, subscriptionGroup_findMany_withSegments. run.
  rewrite collectSubscriptions_log, app_nil_l.
  rewrite omap_pushedSubscription_first, rows_without_segment.
  do 3 f_equal. unfold groupsWithoutSegment, orderByNameAsc.
  rewrite merge_sort_Permutation. now rewrite list_filter_filter.
Qed.

(** X10. The account of a listing, whatever the assignment rows are.
    getUserSubscriptions never throws and writes nothing to the store; it
    logs exactly one line for each group of the workspace that has no
    segment and nothing else; and it returns, in ascending order of their
    names, one entry for each group of the workspace that has a segment,
    with the id and the name of the group. *)
Theorem getUserSubscriptions_account workspaceId userId w :
  exists subscriptions,
    getUserSubscriptions workspaceId userId w
    = (Normal subscriptions,
       logged
         (replicate (length (groupsWithoutSegment (store w) workspaceId))
            "No segment found for subscription group") w)
    /\ StronglySorted (nameLe usr_name) subscriptions
    /\ map (fun e => (usr_id e, usr_name e)) subscriptions
       ≡ₚ map (fun g => (SubscriptionGroup.id g, SubscriptionGroup.name g))
            (groupsWithSegment (store w) workspaceId)
    /\ length subscriptions
       + length (groupsWithoutSegment (store w) workspaceId)
       = length (filter (fun g => SubscriptionGroup.workspaceId g
                                  = workspaceId)
                   (subscriptionGroup (store w))).
Proof.
  eexists. split; [apply getUserSubscriptions_eq|]. split; [|split].
  - apply (StronglySorted_fmap _ (nameLe SubscriptionGroup.name));
      [now intros x y|].
    apply StronglySorted_filter. unfold orderByNameAsc.
    apply StronglySorted_merge_sort; apply _.
  - rewrite <- list_fmap_compose.
    unfold groupsWithSegment, orderByNameAsc.
    rewrite merge_sort_Permutation, list_filter_filter. reflexivity.
  - rewrite length_map. unfold groupsWithoutSegment, orderByNameAsc.
    rewrite merge_sort_Permutation.
    induction (subscriptionGroup (store w)) as [|g rest IH]; [reflexivity|].
    destruct (decide (SubscriptionGroup.workspaceId g = workspaceId))
      as [Hws|Hws].
    + rewrite (filter_cons_True (fun g => SubscriptionGroup.workspaceId g
                                          = workspaceId)) by exact Hws.
      destruct (segmentsOfGroup (store w) g) as [|s others] eqn:Hsegs.
      * rewrite filter_cons_False by (intros Hsome; now apply Hsome).
        rewrite filter_cons_True by (now split). simpl in *. lia.
      * rewrite filter_cons_True by (rewrite Hsegs; discriminate).
        rewrite filter_cons_False
          by (rewrite Hsegs; intros [Hnil _]; discriminate).
        simpl in *. lia.
    + rewrite (filter_cons_False (fun g => SubscriptionGroup.workspaceId g
                                           = workspaceId)) by exact Hws.
      rewrite (filter_cons_False (fun g => segmentsOfGroup (store w) g = []
                                           /\ _))
        by (intros [_ Hyes]; contradiction).
      exact IH.
Qed.

(** X11. An entry says subscribed only on the word of a row: every entry
    of a listing either has isSubscribed false or belongs to a group of the
    workspace with a segment joined to it for which an assignment row of
    that user has inSegment true.  The type of the group, OptIn or OptOut,
    plays no part: without an assignment row the entry says false. *)
Theorem getUserSubscriptions_subscribed_sound workspaceId userId w :
  exists subscriptions w',
    getUserSubscriptions workspaceId userId w = (Normal subscriptions, w')
    /\ Forall
         (fun e =>
            isSubscribed e = false
            \/ exists g s a,
                 g ∈ subscriptionGroup (store w)
                 /\ SubscriptionGroup.workspaceId g = workspaceId
                 /\ SubscriptionGroup.id g = usr_id e
                 /\ s ∈ segment (store w)
                 /\ Segment.subscriptionGroupId s
                    = Some (SubscriptionGroup.id g)
                 /\ a ∈ segmentAssignment (store w)
                 /\ SegmentAssignment.segmentId a = Segment.id s
                 /\ SegmentAssignment.userId a = userId
                 /\ SegmentAssignment.inSegment a = true)
         subscriptions.
Proof.
  eexists _, _. split; [apply getUserSubscriptions_eq|].
  apply Forall_fmap, Forall_forall. intros g Hg. simpl.
  apply list_elem_of_filter in Hg as [_ Hg]. unfold orderByNameAsc in Hg.
  rewrite merge_sort_Permutation in Hg.
  apply list_elem_of_filter in Hg as [Hws Hg].
  destruct (head (segmentsOfGroup (store w) g)) as [s|] eqn:Hs; [|now left].
  destruct (head (assignmentsOfSegment (store w) userId s)) as [a|] eqn:Ha;
    [|now left].
  destruct (SegmentAssignment.inSegment a) eqn:Hin; [right | now left].
  apply head_Some_elem_of in Hs. apply list_elem_of_filter in Hs as [Hsg Hs].
  apply head_Some_elem_of in Ha.
  apply list_elem_of_filter in Ha as [[Hsid Huid] Ha].
  exists g, s, a. now repeat split.
Qed.


(* ---------------------------------------------------------------- *)
(** *** Further properties of updateUserSubscriptions *)

(** A call that returns has requested no upsert without a segment id. *)
Lemma promiseAll_requests_returns workspaceId userId
    (requests : list (option string * bool)) (final : Prisma unit) w :
  outcomeOf
    (fst (promiseAll
            (map void
               (map (fun request : option string * bool =>
                       segmentAssignment_upsert workspaceId userId
                         (fst request) (snd request)) requests)
             ++ [final]) w))
  = Normal tt ->
  forallb (fun request : option string * bool =>
             bool_decide (is_Some (fst request))) requests = true.
Proof.
  revert w. induction requests as [|[segmentId d] rest IH]; intros w;
    [reflexivity|].
  cbn [map app].
  destruct (promiseAll_cons
              (void (segmentAssignment_upsert workspaceId userId
                       (fst (segmentId, d)) (snd (segmentId, d))))
              (map void
                 (map (fun request : option string * bool =>
                         segmentAssignment_upsert workspaceId userId
                           (fst request) (snd request)) rest)
               ++ [final]) w) as [_ ->].
  rewrite void_eq. cbn [fst snd].
  destruct (segmentAssignment_upsert_eq workspaceId userId segmentId d w)
    as [row ->].
  destruct segmentId as [sid|]; [|discriminate].
  cbn [forallb fst]. rewrite bool_decide_eq_true_2 by eauto.
  destruct (writeError _ _ w) as [e|]; [discriminate|].
  cbn [fst snd outcomeOf andb]. apply IH.
Qed.

Lemma changes_accounted st workspaceId changes :
  length (assignmentWrites st workspaceId changes)
  + length (loggedChanges st workspaceId changes)
  + length (invalidChanges st workspaceId changes)
  = length changes.
Proof.
  unfold assignmentWrites, loggedChanges, invalidChanges.
  induction changes as [|[g d] rest IH]; [reflexivity|].
  cbn [omap list_omap fst snd].
  destruct (writtenSegment st workspaceId g) as [s|] eqn:Hs;
    cbn [fmap option_fmap option_map].
  - rewrite filter_cons_False
      by (unfold assignmentRequest; cbn [fst]; rewrite Hs; discriminate).
    rewrite filter_cons_False
      by (cbn [fst]; rewrite Hs; intros [Hnone _]; discriminate).
    simpl. lia.
  - destruct (decide (g ∈ objectPrototypeMembers)) as [Hin|Hout].
    + rewrite filter_cons_False
        by (unfold assignmentRequest; cbn [fst]; rewrite Hs;
            rewrite bool_decide_eq_true_2 by exact Hin; discriminate).
      rewrite filter_cons_True by now split.
      simpl. lia.
    + rewrite filter_cons_True
        by (unfold assignmentRequest; cbn [fst]; rewrite Hs;
            now rewrite bool_decide_eq_false_2 by exact Hout).
      rewrite filter_cons_False by (cbn [fst]; now intros [_ Hin]).
      simpl. lia.
Qed.

(** X12. The account of an update, whatever the database fails.
    updateUserSubscriptions logs exactly one line for each pair it skips,
    a pair that has no segment to write to and whose group id names no
    member that every record inherits, and nothing else; every pair is
    written to a segment, skipped, or requested without a segment id, and
    the three add up to the pairs given; the call returns only if no pair
    is of the third kind; it draws one uuid and reads the clock once for
    each pair; and it leaves channels, groups, segments, secrets, user
    properties and their assignments as they were. *)
Theorem updateUserSubscriptions_account workspaceId userId changes w :
  let w' := snd (updateUserSubscriptions workspaceId userId changes w) in
  errorLog w'
  = errorLog w
    ++ replicate (length (loggedChanges (store w) workspaceId changes))
         "Segment not found for subscription group id"
  /\ length (assignmentWrites (store w) workspaceId changes)
     + length (loggedChanges (store w) workspaceId changes)
     + length (invalidChanges (store w) workspaceId changes)
     = length changes
  /\ match fst (updateUserSubscriptions workspaceId userId changes w) with
     | Normal _ => invalidChanges (store w) workspaceId changes = []
     | Throw _ => True
     end
  /\ uuidsDrawn w' = uuidsDrawn w + length changes
  /\ clockReads w' = clockReads w + length changes
  /\ channel (store w') = channel (store w)
  /\ subscriptionGroup (store w') = subscriptionGroup (store w)
  /\ segment (store w') = segment (store w)
  /\ secret (store w') = secret (store w)
  /\ userProperty (store w') = userProperty (store w)
  /\ userPropertyAssignment (store w') = userPropertyAssignment (store w).
Proof.
  intros w'. subst w'.
  destruct (updateUserSubscriptions_settled workspaceId userId changes w)
    as (performed & appended & _ & _ & ->).
  cbn [store errorLog uuidsDrawn clockReads].
  split; [reflexivity|]. split; [apply changes_accounted|]. split.
  - rewrite updateUserSubscriptions_steps. cbn [fst].
    match goal with
    | |- context [promiseAll (_ ++ [?final]) ?w2] =>
        pose proof (promiseAll_requests_returns workspaceId userId
                      (omap (assignmentRequest (store w) workspaceId)
                         changes) final w2) as Hreturns;
        destruct (fst (promiseAll
                         (map void
                            (map (fun request : option string * bool =>
                                    segmentAssignment_upsert workspaceId
                                      userId (fst request) (snd request))
                               (omap (assignmentRequest (store w)
                                        workspaceId) changes))
                          ++ [final]) w2)) as [r|e]
    end; [|exact I].
    specialize (Hreturns eq_refl). rewrite requests_valid in Hreturns.
    now destruct (invalidChanges (store w) workspaceId changes).
  - do 2 (split; [reflexivity|]). now destruct (store w).
Qed.


Lemma filter_updateWhere {A} (P : A -> Prop) `{forall x, Decision (P x)}
    (p : A -> bool) (f : A -> A) rows :
  (forall x, p x = true -> ~ P x /\ ~ P (f x)) ->
  filter P (updateWhere p f rows) = filter P rows.
Proof.
  intros Hp. induction rows as [|x rest IH]; [reflexivity|].
  simpl. destruct (p x) eqn:Hx.
  - destruct (Hp x Hx) as [Hold Hnew].
    now rewrite !filter_cons_False by assumption.
  - destruct (decide (P x)) as [Hyes|Hno].
    + rewrite !filter_cons_True by exact Hyes. now rewrite IH.
    + now rewrite !filter_cons_False by exact Hno.
Qed.

Lemma isAssignment_iff workspaceId userId segmentId a :
  isAssignment workspaceId userId segmentId a = true
  <-> assignmentKey a = (workspaceId, userId, segmentId).
Proof.
  unfold isAssignment, assignmentKey.
  rewrite !andb_true_iff, !String.eqb_eq. split.
  - now intros [[-> ->] ->].
  - intros [= -> -> ->]. now repeat split.
Qed.

(** One upsert leaves the rows of the others as they are. *)
Lemma assignmentsOfOthers_write workspaceId userId rows write :
  assignmentsOfOthers workspaceId userId
    (writeAssignment workspaceId userId rows write)
  = assignmentsOfOthers workspaceId userId rows.
Proof.
  unfold assignmentsOfOthers, writeAssignment.
  destruct (find _ rows) as [r|].
  - apply filter_updateWhere. intros x Hx.
    apply isAssignment_iff in Hx. injection Hx as Hws Huid _.
    split; intros Hnot; apply Hnot; now split.
  - rewrite filter_app, filter_cons_False, filter_nil, app_nil_r;
      [reflexivity|].
    intros Hnot. apply Hnot. now split.
Qed.

Lemma map_assignmentKey_updateWhere p b rows :
  map assignmentKey (updateWhere p (setInSegment b) rows)
  = map assignmentKey rows.
Proof.
  induction rows as [|x rest IH]; [reflexivity|].
  simpl. destruct (p x); simpl; now rewrite ?IH.
Qed.

Lemma find_isAssignment_None workspaceId userId segmentId rows :
  find (isAssignment workspaceId userId segmentId) rows = None ->
  (workspaceId, userId, segmentId) ∉ map assignmentKey rows.
Proof.
  induction rows as [|x rest IH]; simpl; [intros _; apply not_elem_of_nil|].
  destruct (isAssignment workspaceId userId segmentId x) eqn:Hx;
    [discriminate|].
  intros Hnone [Heq|Hin]%elem_of_cons; [|now apply IH].
  symmetry in Heq. apply isAssignment_iff in Heq. congruence.
Qed.

(** One upsert keeps every row in its place, and appends at most the row
    of its own key. *)
Lemma map_assignmentKey_write workspaceId userId rows segmentId desired :
  map assignmentKey
    (writeAssignment workspaceId userId rows (segmentId, desired))
  = map assignmentKey rows
    ++ match find (isAssignment workspaceId userId segmentId) rows with
       | Some _ => []
       | None => [(workspaceId, userId, segmentId)]
       end.
Proof.
  unfold writeAssignment. cbn [fst snd].
  destruct (find _ rows) as [r|].
  - now rewrite map_assignmentKey_updateWhere, app_nil_r.
  - now rewrite map_app.
Qed.

(** X13. What an update leaves alone in the assignment table. The rows of
    every other user, and of this user in every other workspace, are row
    for row what they were; no row is removed or moved: the keys of the
    table before the call are the front of the keys after it, and the keys
    appended are keys of this user in this workspace for segments the call
    writes to. *)
Theorem updateUserSubscriptions_frame workspaceId userId changes w :
  let rows := segmentAssignment (store w) in
  let rows' :=
    segmentAssignment
      (store (snd (updateUserSubscriptions workspaceId userId changes w))) in
  assignmentsOfOthers workspaceId userId rows'
  = assignmentsOfOthers workspaceId userId rows
  /\ exists added,
       map assignmentKey rows'
       = map assignmentKey rows
         ++ map (fun segmentId => (workspaceId, userId, segmentId)) added
       /\ Forall
            (fun segmentId =>
               segmentId
               ∈ map fst (assignmentWrites (store w) workspaceId changes))
            added.
Proof.
  intros rows rows'. subst rows rows'.
  destruct (updateUserSubscriptions_settled workspaceId userId changes w)
    as (performed & appended & Hsub & _ & ->).
  cbn [snd store segmentAssignment setUserEvents setSegmentAssignment].
  cut (assignmentsOfOthers workspaceId userId
         (foldl (writeAssignment workspaceId userId)
            (segmentAssignment (store w)) performed)
       = assignmentsOfOthers workspaceId userId (segmentAssignment (store w))
       /\ exists added,
            map assignmentKey
              (foldl (writeAssignment workspaceId userId)
                 (segmentAssignment (store w)) performed)
            = map assignmentKey (segmentAssignment (store w))
              ++ map (fun segmentId => (workspaceId, userId, segmentId)) added
            /\ Forall (fun segmentId => segmentId ∈ map fst performed) added).
  { intros (Hothers & added & Hkeys & Hadded).
    split; [exact Hothers|]. exists added. split; [exact Hkeys|].
    eapply Forall_impl; [exact Hadded|].
    intros x Hx. eapply elem_of_sublist; [exact Hx|].
    now apply fmap_sublist. }
  clear Hsub.
  generalize (segmentAssignment (store w)) as rows.
  intros rows. revert rows.
  induction performed as [|[sid d] rest IH]; intros rows.
  - split; [reflexivity|]. exists []. simpl. now rewrite app_nil_r.
  - cbn [foldl].
    destruct (IH (writeAssignment workspaceId userId rows (sid, d)))
      as (Hothers & added & Hkeys & Hadded).
    split; [now rewrite Hothers, assignmentsOfOthers_write|].
    rewrite Hkeys, map_assignmentKey_write, <- app_assoc.
    assert (Hrest : Forall (fun segmentId =>
                              segmentId ∈ map fst ((sid, d) :: rest)) added).
    { eapply Forall_impl; [exact Hadded|].
      intros x Hx. simpl. now apply list_elem_of_further. }
    destruct (find _ rows) as [r|].
    + exists added. now split.
    + exists (sid :: added). split; [reflexivity|].
      constructor; [simpl; apply list_elem_of_here | exact Hrest].
Qed.

(** X14. updateUserSubscriptions keeps the key of the assignment table
    unique: when no two rows share workspace, user and segment before the
    call, none do after it. *)
Theorem updateUserSubscriptions_unique_keys workspaceId userId changes w :
  NoDup (map assignmentKey (segmentAssignment (store w))) ->
  NoDup (map assignmentKey
           (segmentAssignment
              (store (snd (updateUserSubscriptions workspaceId userId changes
                             w))))).
Proof.
  destruct (updateUserSubscriptions_settled workspaceId userId changes w)
    as (writes & appended & _ & _ & ->).
  cbn [snd store segmentAssignment setUserEvents setSegmentAssignment].
  generalize (segmentAssignment (store w)) as rows.
  intros rows. revert rows.
  induction writes as [|[sid d] rest IH]; intros rows Hunique;
    [exact Hunique|].
  cbn [foldl]. apply IH. rewrite map_assignmentKey_write.
  destruct (find _ rows) as [r|] eqn:Hfind;
    [now rewrite app_nil_r|].
  apply NoDup_app. split; [exact Hunique|].
  split; [|apply NoDup_singleton].
  intros x Hin [->|[]%elem_of_nil]%elem_of_cons.
  now apply (find_isAssignment_None _ _ _ _ Hfind).
Qed.








(* ---------------------------------------------------------------- *)
(** *** An update, then a listing *)






(* ---------------------------------------------------------------- *)
(** *** The message ids of the audit events *)

Lemma auditEvents_messageIds userId n c (changes : list (string * bool)) :
  map messageId (auditEvents userId n c changes)
  = map uuid (seq n (length changes)).
Proof.
  revert n c. induction changes as [|entry rest IH]; intros n c;
    [reflexivity|].
  simpl. now rewrite IH.
Qed.

(** X17. Fresh message ids, whatever the database fails: the audit events
    that two calls of updateUserSubscriptions made one after the other
    append carry, in order, values that [uuid()] returned during the two
    calls, each at most once; so when those values are pairwise distinct,
    the message ids of the appended events are. *)
Theorem updateUserSubscriptions_messageIds_distinct
    workspaceId userId changes userId' changes' w :
  NoDup (map uuid
           (seq (uuidsDrawn w) (length changes + length changes'))) ->
  let w1 := snd (updateUserSubscriptions workspaceId userId changes w) in
  let w2 := snd (updateUserSubscriptions workspaceId userId' changes' w1) in
  exists appended,
    userEvents (store w2) = userEvents (store w) ++ appended
    /\ sublist (map (fun e => messageId (snd e)) appended)
         (map uuid (seq (uuidsDrawn w) (length changes + length changes')))
    /\ NoDup (map (fun e => messageId (snd e)) appended).
Proof.
  intros Hfresh w1 w2. subst w2 w1.
  destruct (updateUserSubscriptions_settled workspaceId userId changes w)
    as (performed1 & appended1 & _ & Happended1 & ->).
  match goal with
  | |- context [updateUserSubscriptions _ _ _ ?w1] =>
      destruct (updateUserSubscriptions_settled workspaceId userId' changes'
                  w1) as (performed2 & appended2 & _ & Happended2 & ->)
  end.
  cbn [store errorLog uuidsDrawn clockReads] in *.
  exists (appended1 ++ appended2).
  assert (Hsub :
    sublist (map (fun e => messageId (snd e)) (appended1 ++ appended2))
      (map uuid (seq (uuidsDrawn w) (length changes + length changes')))).
  { rewrite map_app, seq_app, map_app. apply sublist_app.
    - destruct Happended1 as [-> | ->]; [apply sublist_nil_l|].
      rewrite map_map. cbn [snd]. now rewrite auditEvents_messageIds.
    - destruct Happended2 as [-> | ->]; [apply sublist_nil_l|].
      rewrite map_map. cbn [snd]. now rewrite auditEvents_messageIds. }
  split; [|split; [exact Hsub | exact (sublist_NoDup _ _ Hfresh Hsub)]].
  rewrite app_assoc. now destruct (store w).
Qed.


(* ---------------------------------------------------------------- *)
(** *** A group is registered, a user subscribes, the listing shows it *)





(* ---------------------------------------------------------------- *)
(** *** The JSON text of a string tells the string *)

Lemma unescapeHead_escapeByte c r :
  unescapeHead (JSON.escapeByte c +:+ r) = Some (c, r).
Proof. destruct c as [[] [] [] [] [] [] [] []]; reflexivity. Qed.

Lemma unescapeHead_quote r :
  unescapeHead (String (ascii_of_nat 34) r) = None.
Proof. reflexivity. Qed.

Lemma escape_app_inj a b x y :
  JSON.escape a +:+ String (ascii_of_nat 34) x
  = JSON.escape b +:+ String (ascii_of_nat 34) y ->
  a = b /\ x = y.
Proof.
  revert b. induction a as [|c a IH]; intros [|c' b] Heq.
  - rewrite !app_Empty in Heq. now injection Heq as ->.
  - apply (f_equal unescapeHead) in Heq. cbn [JSON.escape] in Heq.
    rewrite app_Empty, string_app_assoc, unescapeHead_escapeByte in Heq.
    discriminate.
  - apply (f_equal unescapeHead) in Heq. cbn [JSON.escape] in Heq.
    rewrite app_Empty, string_app_assoc, unescapeHead_escapeByte in Heq.
    discriminate.
  - apply (f_equal unescapeHead) in Heq. cbn [JSON.escape] in Heq.
    rewrite !string_app_assoc, !unescapeHead_escapeByte in Heq.
    injection Heq as -> Hrest.
    destruct (IH b Hrest) as [-> ->]. now split.
Qed.

(** A quoted string is read back from the front of any text. *)
Lemma quote_app_inj a b x y :
  JSON.quote a +:+ x = JSON.quote b +:+ y -> a = b /\ x = y.
Proof.
  unfold JSON.quote. rewrite !app_String, !string_app_assoc, !app_String.
  rewrite !app_Empty. intros [= Heq]. now apply escape_app_inj.
Qed.

Lemma quote_inj a b : JSON.quote a = JSON.quote b -> a = b.
Proof.
  intros Heq. apply (quote_app_inj a b "" "").
  now rewrite !string_app_nil_r.
Qed.


(** X19. The rows of two identifiers are apart: the lookup matches an
    assignment by the JSON text of the identifier, and that text tells the
    identifier, whatever bytes it contains; so no assignment row matched
    for an identifier is matched for a different one. *)
Theorem assignmentsOfIdentifier_apart
    (st : Store) workspaceId identifierKey identifier identifier' :
  identifier <> identifier' ->
  Forall (fun a => a ∉ assignmentsOfIdentifier st workspaceId identifierKey
                         identifier')
    (assignmentsOfIdentifier st workspaceId identifierKey identifier).
Proof.
  intros Hne. apply Forall_forall. intros a Ha Ha'.
  unfold assignmentsOfIdentifier in Ha, Ha'.
  destruct (find _ (userProperty st)) as [p|];
    [|now apply elem_of_nil in Ha].
  apply list_elem_of_filter in Ha as [[_ Hvalue] _].
  apply list_elem_of_filter in Ha' as [[_ Hvalue'] _].
  apply Hne, quote_inj. now rewrite <- Hvalue, <- Hvalue'.
Qed.

(* ---------------------------------------------------------------- *)
(** *** The raw message of an audit event *)

(** X20. The raw message tells the change: the JSON text that
    buildSubscriptionChangeEvent stores for an event is the same for two
    events exactly when they have the same message id, user id, group id
    and timestamp and their actions have the same text. *)
Theorem subscription_change_event_readable
    messageId userId action subscriptionGroupId timestamp
    messageId' userId' action' subscriptionGroupId' timestamp' :
  JSON.stringify
    (buildSubscriptionChangeEventInner messageId userId action
       subscriptionGroupId timestamp)
  = JSON.stringify
      (buildSubscriptionChangeEventInner messageId' userId' action'
         subscriptionGroupId' timestamp')
  <-> messageId = messageId'
      /\ userId = userId'
      /\ SubscriptionChange_value action = SubscriptionChange_value action'
      /\ subscriptionGroupId = subscriptionGroupId'
      /\ timestamp = timestamp'.
Proof.
  unfold buildSubscriptionChangeEventInner.
  cbn [JSON.stringify Str.join]. split.
  - rewrite !string_app_assoc. intros Heq.
    repeat first
      [ apply quote_app_inj in Heq as [? Heq]
      | apply String.app_inj in Heq ].
    now repeat split.
  - intros (-> & -> & -> & -> & ->). reflexivity.
Qed.


(* ---------------------------------------------------------------- *)
(** *** An update of one user, a listing of another *)

Lemma assignmentsOfUser_writes
    workspaceId userId userId' segmentId writes rows :
  userId' <> userId ->
  filter (fun a => SegmentAssignment.segmentId a = segmentId
                   /\ SegmentAssignment.userId a = userId')
    (foldl (writeAssignment workspaceId userId) rows writes)
  = filter (fun a => SegmentAssignment.segmentId a = segmentId
                     /\ SegmentAssignment.userId a = userId') rows.
Proof.
  intros Hne. revert rows.
  induction writes as [|[sid d] rest IH]; intros rows; [reflexivity|].
  cbn [foldl]. rewrite IH. unfold writeAssignment. cbn [fst snd].
  destruct (find _ rows) as [r|].
  - apply filter_updateWhere. intros x Hx.
    apply isAssignment_iff in Hx. injection Hx as _ Huid _.
    split; intros [_ Huid']; apply Hne; simpl in Huid'; congruence.
  - rewrite filter_app, filter_cons_False, filter_nil, app_nil_r;
      [reflexivity|].
    intros [_ Huid']. now apply Hne.
Qed.

(** X21. An update of one user does not show in the listing of another:
    after updateUserSubscriptions for a user, getUserSubscriptions returns
    for every other user, in every workspace, the entries it returned
    before. *)
Theorem getUserSubscriptions_of_other_user
    workspaceId userId changes workspaceId' userId' w :
  userId' <> userId ->
  fst (getUserSubscriptions workspaceId' userId'
         (snd (updateUserSubscriptions workspaceId userId changes w)))
  = fst (getUserSubscriptions workspaceId' userId' w).
Proof.
  intros Hne.
  destruct (updateUserSubscriptions_settled workspaceId userId changes w)
    as (performed & appended & _ & _ & ->).
  rewrite !getUserSubscriptions_eq.
  cbn [fst snd store].
  set (rows1 := foldl (writeAssignment workspaceId userId)
                  (segmentAssignment (store w)) performed).
  set (st1 := setUserEvents _ (setSegmentAssignment rows1 (store w))).
  assert (Hgroups : subscriptionGroup st1 = subscriptionGroup (store w))
    by now destruct (store w).
  assert (Hsegments : forall g,
            segmentsOfGroup st1 g = segmentsOfGroup (store w) g)
    by (intros g; now destruct (store w)).
  assert (Hassignments : forall s,
            assignmentsOfSegment st1 userId' s
            = assignmentsOfSegment (store w) userId' s).
  { intros s.
    transitivity
      (filter (fun a => SegmentAssignment.segmentId a = Segment.id s
                        /\ SegmentAssignment.userId a = userId') rows1);
      [now destruct (store w)|].
    now apply assignmentsOfUser_writes. }
  rewrite Hgroups. f_equal.
  rewrite (filter_ext_elem _ (fun g => segmentsOfGroup (store w) g <> []))
    by (intros g _; now rewrite Hsegments).
  apply map_ext. intros g. unfold firstRowSubscription.
  rewrite Hsegments.
  destruct (head (segmentsOfGroup (store w) g)) as [s|]; [|reflexivity].
  now rewrite Hassignments.
Qed.


(* ---------------------------------------------------------------- *)
(** *** A link stays good *)

Lemma lookupUserForSubscriptions_tables
    workspaceId identifier identifierKey hash w w' :
  secret (store w') = secret (store w) ->
  userProperty (store w') = userProperty (store w) ->
  userPropertyAssignment (store w') = userPropertyAssignment (store w) ->
  fst (lookupUserForSubscriptions workspaceId identifier identifierKey hash
         w')
  = fst (lookupUserForSubscriptions workspaceId identifier identifierKey hash
           w).
Proof.
  intros Hsecret Hproperty Hassignment.
  rewrite !lookupUserForSubscriptions_eq. cbn [fst].
  unfold assignmentsOfIdentifier, subscriptionSecretOf.
  now rewrite Hsecret, Hproperty, Hassignment.
Qed.

(** X22. Registering groups and changing subscriptions leave every link as
    good as it was: after upsertSubscriptionGroup and after
    updateUserSubscriptions, with whatever arguments,
    lookupUserForSubscriptions answers each identifier and hash as it
    answered before. *)
Theorem lookupUserForSubscriptions_after_writes
    workspaceId identifier identifierKey hash w
    id name type workspaceId' userId changes :
  fst (lookupUserForSubscriptions workspaceId identifier identifierKey hash
         (snd (upsertSubscriptionGroup id name type workspaceId' w)))
  = fst (lookupUserForSubscriptions workspaceId identifier identifierKey hash
           w)
  /\ fst (lookupUserForSubscriptions workspaceId identifier identifierKey
            hash
            (snd (updateUserSubscriptions workspaceId' userId changes w)))
     = fst (lookupUserForSubscriptions workspaceId identifier identifierKey
              hash w).
Proof.
  split.
  - destruct (upsertSubscriptionGroup_world id name type workspaceId' w)
      as (groups' & created & -> & _).
    apply lookupUserForSubscriptions_tables; now destruct (store w).
  - destruct (updateUserSubscriptions_settled workspaceId' userId changes w)
      as (performed & appended & _ & _ & ->).
    apply lookupUserForSubscriptions_tables; now destruct (store w).
Qed.

End SubscriptionGroups.

(* ================================================================== *)
(** ** Digests of bounded length *)





(* ================================================================== *)
(** ** The properties at the reference instance *)

(** In the sample store the address [a@b.com] is assigned to [u1] only. *)
Lemma Reference_identifierMapsTo :
  identifierMapsTo (store Reference.world) "ws1" "email" "a@b.com" "u1".
Proof.
  assert (Hrows :
    assignmentsOfIdentifier (store Reference.world) "ws1" "email" "a@b.com"
    = [{| UserPropertyAssignment.userPropertyId := "p1";
          UserPropertyAssignment.userId := "u1";
          UserPropertyAssignment.value := JSON.quote "a@b.com" |}])
    by (vm_compute; reflexivity).
  unfold identifierMapsTo. rewrite Hrows. split; [discriminate|].
  intros a Ha. apply list_elem_of_singleton in Ha. now subst a.
Defined.

(** C1 at the sample store: the link built for [u1] is looked up as [u1]. *)
Lemma lookup_of_generated_url_witness :
  subscriptionSecretOf Reference.secretName (store Reference.world) "ws1"
  = Some "s3cr3t"
  /\ identifierMapsTo (store Reference.world) "ws1" "email" "a@b.com" "u1"
  /\ exists params hash,
       searchParamsOf Reference.managementPage
         (generateSubscriptionChangeUrl Reference.secureHash
            Reference.managementPage "ws1" "s3cr3t" "u1" "a@b.com" "email"
            None None)
       = Some params
       /\ URLSearchParams.get "w" params = Some "ws1"
       /\ URLSearchParams.get "i" params = Some "a@b.com"
       /\ URLSearchParams.get "ik" params = Some "email"
       /\ URLSearchParams.get "h" params = Some hash
       /\ lookupUserForSubscriptions Reference.secureHash
            Reference.secretName "ws1" "a@b.com" "email" hash Reference.world
          = (Normal (ok "u1"), Reference.world).
Proof.
  split; [reflexivity|]. split; [exact Reference_identifierMapsTo|].
  apply (lookup_of_generated_url Reference.secureHash
           Reference.managementPage Reference.secretName Reference.world
           "ws1" "s3cr3t" "u1" "a@b.com" "email" None None).
  - reflexivity.
  - exact Reference_identifierMapsTo.
Defined.

(** C1, as the claim states it, fails where two users share an identifier:
    in the sample store in which the address [a@b.com] is assigned to [u1]
    and to [u2], the workspace has its secret and an assignment of the
    address maps to [u2], yet, whatever generateSecureHash is, the lookup
    of the link built for [u2] does not return [u2]; with the sample
    digest it answers "Hash mismatch". *)
Lemma lookup_of_generated_url_shared_identifier :
  subscriptionSecretOf Reference.secretName (store Reference.shared) "ws1"
  = Some "s3cr3t"
  /\ (exists a,
        a ∈ assignmentsOfIdentifier (store Reference.shared) "ws1" "email"
              "a@b.com"
        /\ UserPropertyAssignment.userId a = "u2")
  /\ ~ (exists generateSecureHash params hash,
          searchParamsOf Reference.managementPage
            (generateSubscriptionChangeUrl generateSecureHash
               Reference.managementPage "ws1" "s3cr3t" "u2" "a@b.com"
               "email" None None)
          = Some params
          /\ URLSearchParams.get "h" params = Some hash
          /\ fst (lookupUserForSubscriptions generateSecureHash
                    Reference.secretName "ws1" "a@b.com" "email" hash
                    Reference.shared)
             = Normal (ok "u2"))
  /\ lookupUserForSubscriptions Reference.secureHash Reference.secretName
       "ws1" "a@b.com" "email"
       (generateSubscriptionHash Reference.secureHash "ws1" "u2" "email"
          "a@b.com" "s3cr3t") Reference.shared
     = (Normal (err "Hash mismatch"), Reference.shared).
Proof.
  split; [reflexivity|]. split.
  { eexists {| UserPropertyAssignment.userPropertyId := "p1";
               UserPropertyAssignment.userId := "u2";
               UserPropertyAssignment.value := JSON.quote "a@b.com" |}.
    split; [|reflexivity]. vm_compute. apply list_elem_of_further.
    apply list_elem_of_here. }
  split; [|vm_compute; reflexivity].
  intros (digest & params & hash & Hparams & Hhash & Hlookup).
  rewrite searchParamsOf_generateSubscriptionChangeUrl in Hparams.
  injection Hparams as <-.
  vm_compute in Hhash. injection Hhash as <-.
  rewrite lookupUserForSubscriptions_eq in Hlookup.
  assert (Hfirst :
    head (assignmentsOfIdentifier (store Reference.shared) "ws1" "email"
            "a@b.com")
    = Some {| UserPropertyAssignment.userPropertyId := "p1";
              UserPropertyAssignment.userId := "u1";
              UserPropertyAssignment.value := JSON.quote "a@b.com" |})
    by (vm_compute; reflexivity).
  assert (Hsecret :
    subscriptionSecretOf Reference.secretName (store Reference.shared) "ws1"
    = Some "s3cr3t") by reflexivity.
  rewrite Hfirst, Hsecret in Hlookup. cbn [fst] in Hlookup.
  destruct (String.eqb _ _) in Hlookup; discriminate Hlookup.
Qed.



(** C4 at the sample store without its secret: the lookup of a known user
    throws. *)
Lemma lookupUserForSubscriptions_missing_secret_witness :
  subscriptionSecretOf Reference.secretName (store Reference.keyless) "ws1"
  = None
  /\ assignmentsOfIdentifier (store Reference.keyless) "ws1" "email"
       "a@b.com" <> []
  /\ lookupUserForSubscriptions Reference.secureHash Reference.secretName
       "ws1" "a@b.com" "email" "h" Reference.keyless
     = (Throw "Subscription secret not found", Reference.keyless).
Proof.
  assert (Hassigned :
    assignmentsOfIdentifier (store Reference.keyless) "ws1" "email" "a@b.com"
    <> []) by (vm_compute; discriminate).
  split; [reflexivity|]. split; [exact Hassigned|].
  apply (proj1 (lookupUserForSubscriptions_missing_secret
                  Reference.secureHash Reference.secretName
                  "ws1" "a@b.com" "email" "h" Reference.keyless eq_refl)).
  exact Hassigned.
Defined.

(** C4, as the claim states it, fails: with no secret and an identifier
    that no user has, the lookup returns the typed error "User not found"
    and does not throw. *)
Lemma lookupUserForSubscriptions_missing_secret_returns :
  subscriptionSecretOf Reference.secretName (store Reference.keyless) "ws1"
  = None
  /\ lookupUserForSubscriptions Reference.secureHash Reference.secretName
       "ws1" "nobody@b.com" "email" "h" Reference.keyless
     = (Normal (err "User not found"), Reference.keyless)
  /\ forall e,
       fst (lookupUserForSubscriptions Reference.secureHash
              Reference.secretName "ws1" "nobody@b.com" "email" "h"
              Reference.keyless) <> Throw e.
Proof.
  assert (Hcall :
    lookupUserForSubscriptions Reference.secureHash Reference.secretName
      "ws1" "nobody@b.com" "email" "h" Reference.keyless
    = (Normal (err "User not found"), Reference.keyless))
    by (vm_compute; reflexivity).
  split; [reflexivity|]. split; [exact Hcall|].
  intros e. rewrite Hcall. discriminate.
Qed.

(** C8, as the claim states it, fails: a link built with no change given
    still carries [sub], with the value "0", so its parameters are not
    [w], [i], [ik] and [h] only. *)
Lemma generated_url_without_change_carries_sub :
  (searchParamsOf Reference.managementPage
     (generateSubscriptionChangeUrl Reference.secureHash
        Reference.managementPage "ws1" "s3cr3t" "u1" "a@b.com" "email"
        None None)
   ≫= URLSearchParams.get "sub") = Some "0"
  /\ URLSearchParams.keys
       <$> searchParamsOf Reference.managementPage
             (generateSubscriptionChangeUrl Reference.secureHash
                Reference.managementPage "ws1" "s3cr3t" "u1" "a@b.com"
                "email" None None)
     <> Some ["w"; "i"; "ik"; "h"].
Proof.
  rewrite searchParamsOf_generateSubscriptionChangeUrl.
  split; [reflexivity | discriminate].
Qed.




(** Why C5 asks for the invariant: the segment upsert updates nothing, so
    a segment of the group's segment name that is already in the workspace
    stays as it is, whatever its definition. *)
Lemma upsertSubscriptionGroup_keeps_segment_of_that_name :
  exists g w',
    upsertSubscriptionGroup Reference.uuid Reference.noFault "g1" "News"
      OptOut "ws1" Reference.foreign = (Normal (ok g), w')
    /\ map (fun s => entryNode (Segment.definition s))
         (segmentsNamed (store w') "ws1" (segmentNameOf "g1"))
       = [TraitSegmentNode "1" "plan" (Equals "pro")].
Proof.
  eexists _, _. split; vm_compute; reflexivity.
Qed.

(** C6 at a store with nothing registered: the group is created as News
    and upserted again as Newsletter, of type OptIn. *)
Lemma upsertSubscriptionGroup_second_call_witness :
  upsertSubscriptionGroup Reference.uuid Reference.noFault "g1" "News"
    OptOut "ws1" Reference.fresh
  = (Normal (ok (createdGroup "g1" "News" OptOut "ws1"
                   {| Channel.id := "c1"; Channel.workspaceId := "ws1";
                      Channel.name := "email" |})),
     snd (upsertSubscriptionGroup Reference.uuid Reference.noFault "g1"
            "News" OptOut "ws1" Reference.fresh))
  /\ upsertSubscriptionGroup Reference.uuid Reference.noFault "g1"
       "Newsletter" OptIn "ws1"
       (snd (upsertSubscriptionGroup Reference.uuid Reference.noFault "g1"
               "News" OptOut "ws1" Reference.fresh))
     = (Normal (ok {| SubscriptionGroup.id := "g1";
                      SubscriptionGroup.workspaceId := "ws1";
                      SubscriptionGroup.name := "Newsletter";
                      SubscriptionGroup.type := OptIn;
                      SubscriptionGroup.channelId := "c1" |}),
        withStore
          (setSubscriptionGroup
             [{| SubscriptionGroup.id := "g1";
                 SubscriptionGroup.workspaceId := "ws1";
                 SubscriptionGroup.name := "Newsletter";
                 SubscriptionGroup.type := OptIn;
                 SubscriptionGroup.channelId := "c1" |}])
          (snd (upsertSubscriptionGroup Reference.uuid Reference.noFault
                  "g1" "News" OptOut "ws1" Reference.fresh)))
  /\ segment
       (store
          (snd (upsertSubscriptionGroup Reference.uuid Reference.noFault
                  "g1" "Newsletter" OptIn "ws1"
                  (snd (upsertSubscriptionGroup Reference.uuid
                          Reference.noFault "g1" "News" OptOut "ws1"
                          Reference.fresh)))))
     = segment
         (store (snd (upsertSubscriptionGroup Reference.uuid
                        Reference.noFault "g1" "News" OptOut "ws1"
                        Reference.fresh))).
Proof.
  assert (Hfirst :
    upsertSubscriptionGroup Reference.uuid Reference.noFault "g1" "News"
      OptOut "ws1" Reference.fresh
    = (Normal (ok (createdGroup "g1" "News" OptOut "ws1"
                     {| Channel.id := "c1"; Channel.workspaceId := "ws1";
                        Channel.name := "email" |})),
       snd (upsertSubscriptionGroup Reference.uuid Reference.noFault "g1"
              "News" OptOut "ws1" Reference.fresh)))
    by (vm_compute; reflexivity).
  split; [exact Hfirst|].
  destruct (proj1 (upsertSubscriptionGroup_second_call Reference.uuid
                     Reference.noFault "g1" "News" OptOut "ws1"
                     Reference.fresh _ _ "Newsletter" OptIn Hfirst))
    as (Hsecond & Hsegments & _).
  split; [exact Hsecond | exact Hsegments].
Defined.

(** C6, as the claim states it, fails when the second call names another
    workspace: the group [g1], created in [ws1] and upserted again with
    the same id under [ws2], keeps its row but for name and type, and the
    second call also writes a segment row, the segment [uuid-1] of [ws2];
    it changes more than the group's name and type. *)
Lemma upsertSubscriptionGroup_second_call_other_workspace :
  exists g1 w1 g2 w2,
    upsertSubscriptionGroup Reference.uuid Reference.noFault "g1" "News"
      OptOut "ws1" Reference.fresh = (Normal (ok g1), w1)
    /\ upsertSubscriptionGroup Reference.uuid Reference.noFault "g1"
         "Newsletter" OptIn "ws2" w1
       = (Normal (ok g2), w2)
    /\ segment (store w1) = [Reference.segmentOfGroup "uuid-0" "ws1" "g1"]
    /\ segment (store w2)
       = [Reference.segmentOfGroup "uuid-0" "ws1" "g1";
          Reference.segmentOfGroup "uuid-1" "ws2" "g1"]
    /\ segment (store w2) <> segment (store w1).
Proof.
  eexists _, _, _, _.
  split; [vm_compute; reflexivity|].
  split; [vm_compute; reflexivity|].
  split; [vm_compute; reflexivity|].
  split; [vm_compute; reflexivity|].
  vm_compute. discriminate.
Qed.

(** In the sample store with a group that lost its segment, the one
    assignment row agrees with itself. *)
Lemma Reference_odd_assignmentsAgree :
  assignmentsAgree (store Reference.odd) "u1".
Proof.
  intros a b Ha Hb _ _ _.
  apply list_elem_of_singleton in Ha, Hb. now subst a b.
Defined.

(** C7 at the sample store with three groups, of which Alerts lost its
    segment: for [u1], who is in the segment of News and has no row for
    the segment of Offers, the listing is News, subscribed, and Offers,
    not subscribed; Alerts is not listed. *)
Lemma getUserSubscriptions_lists_witness :
  assignmentsAgree (store Reference.odd) "u1"
  /\ map SubscriptionGroup.name (subscriptionGroup (store Reference.odd))
     = ["News"; "Alerts"; "Offers"]
  /\ fst (getUserSubscriptions "ws1" "u1" Reference.odd)
     = Normal [{| usr_id := "g1"; usr_name := "News"; isSubscribed := true |};
               {| usr_id := "g2"; usr_name := "Offers";
                  isSubscribed := false |}]
  /\ exists subscriptions w',
       getUserSubscriptions "ws1" "u1" Reference.odd
       = (Normal subscriptions, w')
       /\ store w' = store Reference.odd
       /\ StronglySorted (nameLe usr_name) subscriptions
       /\ subscriptions
          ≡ₚ [{| usr_id := "g1"; usr_name := "News"; isSubscribed := true |};
              {| usr_id := "g2"; usr_name := "Offers";
                 isSubscribed := false |}].
Proof.
  split; [exact Reference_odd_assignmentsAgree|].
  split; [reflexivity|]. split; [vm_compute; reflexivity|].
  destruct (getUserSubscriptions_lists "ws1" "u1" Reference.odd
              Reference_odd_assignmentsAgree)
    as (subscriptions & w' & Hcall & Hstore & Hsorted & Hlisting & _ & _).
  exists subscriptions, w'.
  split; [exact Hcall|]. split; [exact Hstore|]. split; [exact Hsorted|].
  assert (Hrows :
    listing (store Reference.odd) "ws1" "u1"
    = [{| usr_id := "g1"; usr_name := "News"; isSubscribed := true |};
       {| usr_id := "g2"; usr_name := "Offers"; isSubscribed := false |}])
    by (vm_compute; reflexivity).
  now rewrite <- Hrows.
Defined.


(* ================================================================== *)
(** ** The further properties at the reference instance *)



(** X1 at the sample store: the lookup accepts the hash of [u1], and what
    it accepted is the hash of the first user of the address under the
    secret of [ws1]. *)
Lemma lookupUserForSubscriptions_ok_sound_witness :
  lookupUserForSubscriptions Reference.secureHash Reference.secretName
    "ws1" "a@b.com" "email"
    (generateSubscriptionHash Reference.secureHash "ws1" "u1" "email"
       "a@b.com" "s3cr3t") Reference.world
  = (Normal (ok "u1"), Reference.world)
  /\ exists a subscriptionSecret,
       head (assignmentsOfIdentifier (store Reference.world) "ws1" "email"
               "a@b.com") = Some a
       /\ UserPropertyAssignment.userId a = "u1"
       /\ subscriptionSecretOf Reference.secretName (store Reference.world)
            "ws1" = Some subscriptionSecret
       /\ generateSubscriptionHash Reference.secureHash "ws1" "u1" "email"
            "a@b.com" "s3cr3t"
          = generateSubscriptionHash Reference.secureHash "ws1" "u1" "email"
              "a@b.com" subscriptionSecret.
Proof.
  assert (Hcall :
    lookupUserForSubscriptions Reference.secureHash Reference.secretName
      "ws1" "a@b.com" "email"
      (generateSubscriptionHash Reference.secureHash "ws1" "u1" "email"
         "a@b.com" "s3cr3t") Reference.world
    = (Normal (ok "u1"), Reference.world))
    by (vm_compute; reflexivity).
  split; [exact Hcall|].
  exact (proj2 (lookupUserForSubscriptions_ok_sound Reference.secureHash
                  Reference.secretName "ws1" "a@b.com" "email" _
                  Reference.world "u1" Reference.world Hcall)).
Defined.

(** X3 at the sample store with two users of one address: the hash of the
    second user, [u2], does not resolve to [u2]; the sample digest tells
    the two users apart, and the answer is "Hash mismatch". *)
Lemma lookupUserForSubscriptions_other_user_witness :
  subscriptionSecretOf Reference.secretName (store Reference.shared) "ws1"
  = Some "s3cr3t"
  /\ head (assignmentsOfIdentifier (store Reference.shared) "ws1" "email"
             "a@b.com")
     = Some {| UserPropertyAssignment.userPropertyId := "p1";
               UserPropertyAssignment.userId := "u1";
               UserPropertyAssignment.value := JSON.quote "a@b.com" |}
  /\ "u2" <> "u1"
  /\ snd (lookupUserForSubscriptions Reference.secureHash
            Reference.secretName "ws1" "a@b.com" "email"
            (generateSubscriptionHash Reference.secureHash "ws1" "u2"
               "email" "a@b.com" "s3cr3t") Reference.shared)
     = Reference.shared
  /\ fst (lookupUserForSubscriptions Reference.secureHash
            Reference.secretName "ws1" "a@b.com" "email"
            (generateSubscriptionHash Reference.secureHash "ws1" "u2"
               "email" "a@b.com" "s3cr3t") Reference.shared)
     <> Normal (ok "u2")
  /\ fst (lookupUserForSubscriptions Reference.secureHash
            Reference.secretName "ws1" "a@b.com" "email"
            (generateSubscriptionHash Reference.secureHash "ws1" "u2"
               "email" "a@b.com" "s3cr3t") Reference.shared)
     = Normal (err "Hash mismatch").
Proof.
  assert (Hsecret :
    subscriptionSecretOf Reference.secretName (store Reference.shared) "ws1"
    = Some "s3cr3t") by reflexivity.
  assert (Hfirst :
    head (assignmentsOfIdentifier (store Reference.shared) "ws1" "email"
            "a@b.com")
    = Some {| UserPropertyAssignment.userPropertyId := "p1";
              UserPropertyAssignment.userId := "u1";
              UserPropertyAssignment.value := JSON.quote "a@b.com" |})
    by (vm_compute; reflexivity).
  assert (Hother : "u2" <> "u1") by discriminate.
  split; [exact Hsecret|]. split; [exact Hfirst|]. split; [exact Hother|].
  pose proof (lookupUserForSubscriptions_other_user Reference.secureHash
                Reference.secretName "ws1" "a@b.com" "email" "s3cr3t" _ "u2"
                Reference.shared Hsecret Hfirst Hother) as Hanswer.
  cbv zeta in Hanswer. destruct Hanswer as (Hworld & Hnot & _).
  split; [exact Hworld|]. split; [exact Hnot|].
  vm_compute. reflexivity.
Defined.

(** X5 at two calls that return one link: a call without target and
    change, and a call for the group [undefined] with UnSubscribe. *)
Lemma generated_url_injective_witness :
  generateSubscriptionChangeUrl Reference.secureHash Reference.managementPage
    "ws1" "s3cr3t" "u1" "a@b.com" "email" None None
  = generateSubscriptionChangeUrl Reference.secureHash
      Reference.managementPage "ws1" "s3cr3t" "u1" "a@b.com" "email"
      (Some "undefined") (Some UnSubscribe)
  /\ default "undefined" None = default "undefined" (Some "undefined")
  /\ subFlag None = subFlag (Some UnSubscribe).
Proof.
  assert (Hsame :
    generateSubscriptionChangeUrl Reference.secureHash
      Reference.managementPage "ws1" "s3cr3t" "u1" "a@b.com" "email" None None
    = generateSubscriptionChangeUrl Reference.secureHash
        Reference.managementPage "ws1" "s3cr3t" "u1" "a@b.com" "email"
        (Some "undefined") (Some UnSubscribe)) by reflexivity.
  split; [exact Hsame|].
  exact (proj2 (proj2 (proj2 (proj2
           (generated_url_injective Reference.secureHash
              Reference.managementPage _ _ _ _ _ _ _ _ _ _ _ _ _ _
              Hsame))))).
Defined.

(** X9 at the sample store with three groups: adding the group
    [g7] keeps the ids distinct. *)
Lemma upsertSubscriptionGroup_unique_ids_witness :
  NoDup (map SubscriptionGroup.id (subscriptionGroup (store Reference.odd)))
  /\ NoDup
       (map SubscriptionGroup.id
          (subscriptionGroup
             (store (snd (upsertSubscriptionGroup Reference.uuid
                            Reference.noFault "g7" "Digest" OptIn "ws1"
                            Reference.odd))))).
Proof.
  assert (Hunique :
    NoDup (map SubscriptionGroup.id
             (subscriptionGroup (store Reference.odd))))
    by (refine (bool_decide_unpack _ _); vm_compute; exact I).
  split; [exact Hunique|].
  exact (upsertSubscriptionGroup_unique_ids Reference.uuid Reference.noFault
           "g7" "Digest" OptIn "ws1" Reference.odd Hunique).
Defined.

(** X14 at the sample store: an update of [u1] keeps the one key unique. *)
Lemma updateUserSubscriptions_unique_keys_witness :
  NoDup (map assignmentKey (segmentAssignment (store Reference.world)))
  /\ NoDup
       (map assignmentKey
          (segmentAssignment
             (store (snd (updateUserSubscriptions Reference.uuid
                            Reference.toISOString Reference.noFault "ws1"
                            "u2" [("g1", true)] Reference.world))))).
Proof.
  assert (Hunique :
    NoDup (map assignmentKey (segmentAssignment (store Reference.world))))
    by (refine (bool_decide_unpack _ _); vm_compute; exact I).
  split; [exact Hunique|].
  exact (updateUserSubscriptions_unique_keys Reference.uuid
           Reference.toISOString Reference.noFault "ws1" "u2"
           [("g1", true)] Reference.world Hunique).
Defined.



(** X17 at the sample store: two updates, of two pairs and of one, draw
    three different uuids and append three events with three message
    ids. *)
Lemma updateUserSubscriptions_messageIds_distinct_witness :
  NoDup (map Reference.uuid (seq (uuidsDrawn Reference.world) (2 + 1)))
  /\ exists appended,
       userEvents
         (store
            (snd (updateUserSubscriptions Reference.uuid
                    Reference.toISOString Reference.noFault "ws1" "u2"
                    [("g1", true)]
                    (snd (updateUserSubscriptions Reference.uuid
                            Reference.toISOString Reference.noFault "ws1"
                            "u1" [("g1", false); ("g0", true)]
                            Reference.world)))))
       = userEvents (store Reference.world) ++ appended
       /\ sublist (map (fun e => messageId (snd e)) appended)
            (map Reference.uuid (seq (uuidsDrawn Reference.world) (2 + 1)))
       /\ NoDup (map (fun e => messageId (snd e)) appended).
Proof.
  assert (Hfresh :
    NoDup (map Reference.uuid (seq (uuidsDrawn Reference.world) (2 + 1))))
    by (refine (bool_decide_unpack _ _); vm_compute; exact I).
  split; [exact Hfresh|].
  exact (updateUserSubscriptions_messageIds_distinct Reference.uuid
           Reference.toISOString Reference.noFault "ws1" "u1"
           [("g1", false); ("g0", true)] "u2" [("g1", true)] Reference.world
           Hfresh).
Defined.


(** X19 at the sample store: the row of [a@b.com] is no row of
    [A@b.com]. *)
Lemma assignmentsOfIdentifier_apart_witness :
  "a@b.com" <> "A@b.com"
  /\ Forall (fun a => a ∉ assignmentsOfIdentifier (store Reference.world)
                            "ws1" "email" "A@b.com")
       (assignmentsOfIdentifier (store Reference.world) "ws1" "email"
          "a@b.com").
Proof.
  assert (Hne : "a@b.com" <> "A@b.com") by discriminate.
  split; [exact Hne|].
  exact (assignmentsOfIdentifier_apart (store Reference.world) "ws1" "email"
           "a@b.com" "A@b.com" Hne).
Defined.

(** X21 at the sample store: after [u2] is subscribed to [g1], the listing
    of [u1] is what it was. *)
Lemma getUserSubscriptions_of_other_user_witness :
  "u1" <> "u2"
  /\ fst (getUserSubscriptions "ws1" "u1"
            (snd (updateUserSubscriptions Reference.uuid
                    Reference.toISOString Reference.noFault "ws1" "u2"
                    [("g1", false)] Reference.world)))
     = fst (getUserSubscriptions "ws1" "u1" Reference.world).
Proof.
  assert (Hne : "u1" <> "u2") by discriminate.
  split; [exact Hne|].
  exact (getUserSubscriptions_of_other_user Reference.uuid
           Reference.toISOString Reference.noFault "ws1" "u2"
           [("g1", false)] "ws1" "u1" Reference.world Hne).
Defined.

